(** * Fastrict: the rate-limit decision engine and its middleware

    A shallow embedding of [fastrict/use_cases/rate_limit.py] and
    [fastrict/frameworks/middleware.py].

    Python integers are unbounded, so [limit], [ttl], counts and status
    codes are [Z].  Dictionaries are [gmap]s.  A method that can raise, log
    or touch the counter store is a computation in the monad [M]: a function
    from the world (store, journal of store calls, logger output, standard
    output) to an outcome and a new world, where an outcome is either a
    raised [Exception] or a returned value.  State changes made before a
    raise are kept, as in Python. *)

From Stdlib Require Import ZArith String List Bool Lia.
From stdpp Require Import base option list gmap strings pretty.

Local Open Scope Z_scope.
Local Open Scope string_scope.

(** ** Entities *)

(** Modelled from the spec: the enumeration [RateLimitStrategyName] lives in
    [fastrict/entities], which is not among the sources.  [SHORT], [MEDIUM]
    and [LONG] are the members the sources name; [CUSTOM] stands for a
    member they do not name.  Members of an enumeration are truthy, which
    is what [if config.strategy_name:] relies on. *)
Inductive RateLimitStrategyName := SHORT | MEDIUM | LONG | CUSTOM.

#[global] Instance RateLimitStrategyName_eq_dec : EqDecision RateLimitStrategyName.
Proof. solve_decision. Defined.

Definition RateLimitStrategyName_code (n : RateLimitStrategyName) : positive :=
  match n with SHORT => 1 | MEDIUM => 2 | LONG => 3 | CUSTOM => 4 end%positive.

Definition RateLimitStrategyName_of_code (p : positive) : option RateLimitStrategyName :=
  match p with
  | 1 => Some SHORT | 2 => Some MEDIUM | 3 => Some LONG | 4 => Some CUSTOM
  | _ => None
  end%positive.

#[global] Instance RateLimitStrategyName_countable : Countable RateLimitStrategyName.
Proof.
  apply (Build_Countable _ _ RateLimitStrategyName_code RateLimitStrategyName_of_code).
  intros []; reflexivity.
Defined.

(** An f-string is kept as the list of its pieces: how an enumeration
    member or [None] prints is left to Python. *)
Inductive fragment :=
  | Lit (s : string)
  | StrInt (z : Z)
  | StrOptInt (o : option Z)
  | StrName (n : RateLimitStrategyName)
  | StrNames (l : list RateLimitStrategyName).

Definition fstring := list fragment.

(** [RateLimitStrategy(name=..., limit=..., ttl=...)]. *)
Module RateLimitStrategy.
Record t := mk { name : RateLimitStrategyName; limit : Z; ttl : Z }.
End RateLimitStrategy.

(** [RateLimitResult(allowed, key, current_count, limit, ttl, retry_after,
    strategy_name)]; [retry_after] is [None] when it is not passed. *)
Module RateLimitResult.
Record t := mk {
  allowed : bool;
  key : string;
  current_count : Z;
  limit : Z;
  ttl : Z;
  retry_after : option Z;
  strategy_name : RateLimitStrategyName
}.
End RateLimitResult.

(** Modelled from the spec: the constructor of [RateLimitResult], which lives
    in [fastrict/entities] and is not among the sources.  Section 3 of the
    specification makes [currentCount] a non-negative integer: the
    constructor raises for a count below 0 and builds the record
    otherwise.  [invalid_count] stands for the exception it raises, a
    subclass of [Exception] that is neither of the two classes the engine
    names. *)
Definition invalid_count_description : string := "ValueError".

(** The [detail] dictionary that [check_rate_limit] puts in the exceeded
    signal: keys ["message"], ["retry_after"], ["limit"], ["window"]. *)
Module Detail.
Record t := mk {
  message : fstring;
  retry_after : option Z;
  limit : Z;
  window : Z
}.
End Detail.

Definition Headers := gmap string string.

(** ** Exceptions

    [RateLimitHTTPException] is declared in [rate_limit.py] as a direct
    subclass of [Exception]; [RateLimitException] comes from
    [key_extraction.py], which [rate_limit.py] imports, so neither is a
    subclass of the other.  [OtherException] is any other subclass of
    [Exception] (a connection error of the store, a [KeyError], ...). *)
Inductive Exception :=
  | RateLimitHTTPException (status_code : Z) (detail : Detail.t) (headers : Headers)
  | RateLimitException (message : fstring) (status_code : Z)
  | OtherException (description : string).

Definition invalid_count : Exception := OtherException invalid_count_description.

Definition RateLimitResult__init__ (allowed : bool) (key : string) (current_count : Z)
    (limit ttl : Z) (retry_after : option Z) (strategy_name : RateLimitStrategyName)
  : Exception + RateLimitResult.t :=
  if (current_count <? 0)%Z then inl invalid_count
  else inr (RateLimitResult.mk allowed key current_count limit ttl retry_after strategy_name).

Definition is_RateLimitHTTPException (e : Exception) : bool :=
  match e with RateLimitHTTPException _ _ _ => true | _ => false end.

(** ** The logger and standard output *)

Inductive Level := INFO | WARNING | ERROR.

(** A piece of a logged f-string: a [fragment], or [str(e)]. *)
Inductive logfragment :=
  | Piece (f : fragment)
  | StrExc (e : Exception).

Record LogRecord := { levelname : Level; msg : list logfragment }.

(** ** The world and the monad *)

(** One call of a method of the repository, with its arguments. *)
Inductive RepositoryCall :=
  | IncrementCounter (key : string) (ttl : Z)
  | GetCurrentCount (key : string).

Section World.
Context {Store : Type}.

Record World := {
  repository : Store;                  (* the backing counter store *)
  journal : list RepositoryCall;       (* the calls issued to it, oldest first *)
  logged : list LogRecord;             (* what [self.logger] received *)
  stdout : list (list logfragment)     (* what [print] wrote *)
}.

Definition M (A : Type) : Type := World -> (Exception + A) * World.

Definition ret {A} (a : A) : M A := fun w => (inr a, w).

Definition raise {A} (e : Exception) : M A := fun w => (inl e, w).

Definition bind {A B} (m : M A) (k : A -> M B) : M B :=
  fun w => match m w with
           | (inr a, w') => k a w'
           | (inl e, w') => (inl e, w')
           end.

(** [try: body except Exception as e: handler(e)]. *)
Definition try_except {A} (body : M A) (handler : Exception -> M A) : M A :=
  fun w => match body w with
           | (inr a, w') => (inr a, w')
           | (inl e, w') => handler e w'
           end.

(** A pure computation that may raise. *)
Definition lift {A} (r : Exception + A) : M A := fun w => (r, w).

Definition logger_log (lvl : Level) (m : list logfragment) : M unit :=
  fun w => (inr tt, {| repository := repository w; journal := journal w;
                       logged := logged w ++ [{| levelname := lvl; msg := m |}];
                       stdout := stdout w |}).

Definition print (m : list logfragment) : M unit :=
  fun w => (inr tt, {| repository := repository w; journal := journal w;
                       logged := logged w; stdout := stdout w ++ [m] |}).
End World.

Arguments World : clear implicits.
Arguments M : clear implicits.

Declare Scope engine_scope.
Delimit Scope engine_scope with engine.
Notation "x <- m ;; k" := (bind m (fun x => k))
  (at level 100, m at next level, right associativity) : engine_scope.
Notation "m ;; k" := (bind m (fun _ => k))
  (at level 100, right associativity) : engine_scope.
Local Open Scope engine_scope.

(** ** Collaborators of the engine *)

(** [IRateLimitRepository]: the injected counter store.  Each method takes
    the store's state and gives back what it returned or raised, and the
    new state. *)
Class IRateLimitRepository (Store : Type) := {
  increment_counter : Store -> string -> Z -> (Exception + Z) * Store;
  get_current_count : Store -> string -> (Exception + Z) * Store
}.

(** Modelled from the spec: [KeyExtractionType] and [KeyExtractionStrategy]
    live in [fastrict/entities], which is not among the sources; the fields
    are those of section 3 of the specification. *)
Module KeyExtractionType.
Inductive t := IP | HEADER | QUERY_PARAM | COOKIE | CUSTOM.
End KeyExtractionType.

Record KeyExtractionStrategy {Request : Type} := {
  type : KeyExtractionType.t;
  field : option string;
  default_value : option string;
  extractor : option (Request -> Exception + string)
}.
Arguments KeyExtractionStrategy : clear implicits.

(** [RateLimitConfig]: the per-route override.  The engine reads the fields
    [strategy], [strategy_name], [key_extraction], [bypass_function] and
    [custom_error_message]; the middleware reads [enabled]. *)
Record RateLimitConfig {Request : Type} := {
  strategy : option RateLimitStrategy.t;
  strategy_name : option RateLimitStrategyName;
  key_extraction : option (KeyExtractionStrategy Request);
  bypass_function : option (Request -> Exception + bool);
  custom_error_message : option string;
  enabled : bool
}.
Arguments RateLimitConfig : clear implicits.

(** [KeyExtractionUseCase]: the injected key extractor
    ([key_extraction.py] is not among the sources).  [extract_key] returns
    the key or raises. *)
Class KeyExtractionUseCase (Request : Type) := {
  extract_key : Request -> KeyExtractionStrategy Request -> Exception + string
}.

(** [RateLimitResult.to_headers], a method of the entity, which is not among
    the sources. *)
Class ToHeaders := { to_headers : RateLimitResult.t -> Headers }.

(** ** [RateLimitUseCase] *)

(** The fields of the engine that its methods read and [update_strategies]
    assigns.  The repository it holds is the one of the world, the key
    extractor and the logger are the collaborators above. *)
Record RateLimitUseCase := {
  default_strategies : list RateLimitStrategy.t;
  _strategy_map : gmap RateLimitStrategyName RateLimitStrategy.t
}.

(** [{strategy.name: strategy for strategy in strategies}]: a later entry
    with the same name replaces an earlier one. *)
Definition strategy_map_of (strategies : list RateLimitStrategy.t)
  : gmap RateLimitStrategyName RateLimitStrategy.t :=
  fold_left (fun m s => <[RateLimitStrategy.name s := s]> m) strategies ∅.

Definition _get_default_strategies : list RateLimitStrategy.t :=
  [ RateLimitStrategy.mk SHORT 3 60;
    RateLimitStrategy.mk MEDIUM 20 600;
    RateLimitStrategy.mk LONG 100 3600 ].

(** [RateLimitUseCase.__init__]: [default_strategies or
    self._get_default_strategies()] takes the defaults for [None] and for
    the empty list. *)
Definition RateLimitUseCase__init__ (default_strategies : option (list RateLimitStrategy.t))
  : RateLimitUseCase :=
  let strategies :=
    match default_strategies with
    | None | Some [] => _get_default_strategies
    | Some l => l
    end in
  {| default_strategies := strategies; _strategy_map := strategy_map_of strategies |}.

(** The default of the parameter [default_strategy_name] of
    [check_rate_limit] and of [get_current_usage]. *)
Definition default_strategy_name_default : RateLimitStrategyName := MEDIUM.

Section Engine.
Context {Request Store : Type}.
Context `{!IRateLimitRepository Store} `{!KeyExtractionUseCase Request} `{!ToHeaders}.

Local Abbreviation Config := (RateLimitConfig Request).

(** [self.rate_limit_repository.increment_counter(key=..., ttl=...)]. *)
Definition repository_increment_counter (key : string) (ttl : Z) : M Store Z :=
  fun w => let '(r, s) := increment_counter (repository w) key ttl in
           (r, {| repository := s; journal := journal w ++ [IncrementCounter key ttl];
                  logged := logged w; stdout := stdout w |}).

(** [self.rate_limit_repository.get_current_count(key=...)]. *)
Definition repository_get_current_count (key : string) : M Store Z :=
  fun w => let '(r, s) := get_current_count (repository w) key in
           (r, {| repository := s; journal := journal w ++ [GetCurrentCount key];
                  logged := logged w; stdout := stdout w |}).

(** [_determine_strategy]: a configuration object, a strategy object and
    an enumeration member are truthy, so each [if] tests presence. *)
Definition _determine_strategy (self : RateLimitUseCase) (config : option Config)
    (default_strategy_name : RateLimitStrategyName) : Exception + RateLimitStrategy.t :=
  let use_default :=
    match _strategy_map self !! default_strategy_name with
    | Some strategy => inr strategy
    | None =>
        inl (RateLimitException
               [Lit "Default strategy not found: "; StrName default_strategy_name] 500)
    end in
  match config with
  | Some config =>
      match strategy config with
      | Some strategy => inr strategy
      | None =>
          match strategy_name config with
          | Some n =>
              match _strategy_map self !! n with
              | Some strategy => inr strategy
              | None => inl (RateLimitException [Lit "Unknown strategy name: "; StrName n] 500)
              end
          | None => use_default
          end
      end
  | None => use_default
  end.

Definition _determine_key_strategy (config : option Config) : KeyExtractionStrategy Request :=
  match config with
  | Some {| key_extraction := Some ks |} => ks
  | _ => {| type := KeyExtractionType.IP; field := None;
            default_value := None; extractor := None |}
  end.

(** [_get_error_message]: [config.custom_error_message] is used when it is
    truthy, that is, a string that is not empty. *)
Definition _get_error_message (config : option Config) (result : RateLimitResult.t) : fstring :=
  let generated :=
    [ Lit "Rate limit exceeded. Maximum "; StrInt (RateLimitResult.limit result);
      Lit " requests per "; StrInt (RateLimitResult.ttl result);
      Lit " seconds. Please try again in "; StrOptInt (RateLimitResult.retry_after result);
      Lit " seconds." ] in
  match config with
  | Some {| custom_error_message := Some m |} =>
      if String.eqb m "" then generated else [Lit m]
  | _ => generated
  end.

(** Lines 104-116 of [check_rate_limit]: [true] when the bypass function
    is set and returns true; an exception it raises is logged as a
    warning and the answer is [false]. *)
Definition evaluate_bypass (request : Request) (config : option Config) : M Store bool :=
  match config with
  | Some {| bypass_function := Some f |} =>
      try_except (lift (f request))
        (fun e => logger_log WARNING [Piece (Lit "Bypass function failed: "); StrExc e];;
                  ret false)
  | _ => ret false
  end.

(** Lines 119-150 of [check_rate_limit]: the increment and the decision.
    The result is built by its constructor, inside the [try] of
    [check_rate_limit]: an exception the constructor raises is handled like
    any other. *)
Definition perform_check (config : option Config) (strategy : RateLimitStrategy.t)
    (rate_limit_key : string) : M Store RateLimitResult.t :=
  current_count <- repository_increment_counter rate_limit_key (RateLimitStrategy.ttl strategy);;
  let allowed := (current_count <=? RateLimitStrategy.limit strategy)%Z in
  let retry_after := if negb allowed then Some (RateLimitStrategy.ttl strategy) else None in
  result <- lift (RateLimitResult__init__ allowed rate_limit_key current_count
                    (RateLimitStrategy.limit strategy) (RateLimitStrategy.ttl strategy)
                    retry_after (RateLimitStrategy.name strategy));;
  if negb allowed then
    let error_message := _get_error_message config result in
    raise (RateLimitHTTPException 429
             (Detail.mk error_message retry_after
                (RateLimitStrategy.limit strategy) (RateLimitStrategy.ttl strategy))
             (to_headers result))
  else ret result.

Definition check_rate_limit (self : RateLimitUseCase) (request : Request)
    (config : option Config) (default_strategy_name : RateLimitStrategyName)
  : M Store RateLimitResult.t :=
  try_except
    (strategy <- lift (_determine_strategy self config default_strategy_name);;
     let key_strategy := _determine_key_strategy config in
     rate_limit_key <- lift (extract_key request key_strategy);;
     bypassed <- evaluate_bypass request config;;
     if bypassed : bool then
       lift (RateLimitResult__init__ true rate_limit_key 0
               (RateLimitStrategy.limit strategy) (RateLimitStrategy.ttl strategy)
               None (RateLimitStrategy.name strategy))
     else perform_check config strategy rate_limit_key)
    (fun e =>
       if is_RateLimitHTTPException e then raise e
       else
         logger_log ERROR [Piece (Lit "Rate limit check failed: "); StrExc e];;
         raise (RateLimitException [Lit "Rate limit check failed"] 500)).

Definition get_current_usage (self : RateLimitUseCase) (request : Request)
    (config : option Config) (default_strategy_name : RateLimitStrategyName)
  : M Store RateLimitResult.t :=
  try_except
    (strategy <- lift (_determine_strategy self config default_strategy_name);;
     let key_strategy := _determine_key_strategy config in
     rate_limit_key <- lift (extract_key request key_strategy);;
     current_count <- repository_get_current_count rate_limit_key;;
     let allowed := (current_count <? RateLimitStrategy.limit strategy)%Z in
     let retry_after := if negb allowed then Some (RateLimitStrategy.ttl strategy) else None in
     lift (RateLimitResult__init__ allowed rate_limit_key current_count
             (RateLimitStrategy.limit strategy) (RateLimitStrategy.ttl strategy)
             retry_after (RateLimitStrategy.name strategy)))
    (fun e =>
       logger_log ERROR [Piece (Lit "Usage check failed: "); StrExc e];;
       raise (RateLimitException [Lit "Usage check failed"] 500)).

(** [update_strategies]: both fields are assigned, then the new names are
    logged. *)
Definition update_strategies (self : RateLimitUseCase) (strategies : list RateLimitStrategy.t)
  : M Store RateLimitUseCase :=
  let self' := {| default_strategies := strategies;
                  _strategy_map := strategy_map_of strategies |} in
  logger_log INFO [Piece (Lit "Updated rate limiting strategies: ");
                   Piece (StrNames (map RateLimitStrategy.name strategies))];;
  ret self'.

Definition get_strategy (self : RateLimitUseCase) (name : RateLimitStrategyName)
  : option RateLimitStrategy.t :=
  _strategy_map self !! name.

Definition list_strategies (self : RateLimitUseCase)
  : gmap RateLimitStrategyName RateLimitStrategy.t :=
  _strategy_map self.
End Engine.

(** Calls that leave the parameter [default_strategy_name] out. *)
Definition check_rate_limit_default_name {Request Store : Type}
    `{!IRateLimitRepository Store} `{!KeyExtractionUseCase Request} `{!ToHeaders}
    (self : RateLimitUseCase) (request : Request) (config : option (RateLimitConfig Request))
  : M Store RateLimitResult.t :=
  check_rate_limit self request config default_strategy_name_default.

Definition get_current_usage_default_name {Request Store : Type}
    `{!IRateLimitRepository Store} `{!KeyExtractionUseCase Request}
    (self : RateLimitUseCase) (request : Request) (config : option (RateLimitConfig Request))
  : M Store RateLimitResult.t :=
  get_current_usage self request config default_strategy_name_default.

(** ** [RateLimitMiddleware] *)

(** A response: what the next handler returns, or the [JSONResponse] that
    the middleware builds from the exceeded signal. *)
Inductive Content :=
  | JSON (detail : Detail.t)
  | Body (text : string).

Module Response.
Record t := mk { status_code : Z; content : Content; headers : Headers }.
End Response.

Definition JSONResponse (status_code : Z) (content : Detail.t) (headers : Headers) : Response.t :=
  Response.mk status_code (JSON content) headers.

(** Modelled after Starlette, the framework the middleware runs in, which is
    not part of the repository.  The header names of a response are
    compared without regard to case and written in lower case:
    [response.headers[key] = value] removes the headers of that name,
    whatever their case, and leaves one header, named [key] in lower case,
    with the value.  The names are ASCII, so [lower] changes the letters A
    to Z only.  The assignment encodes name and value as latin-1, which the
    strings of this model always allow, so it returns; the sum type keeps
    the place of the exception it could raise for another value. *)
Definition lower_ascii (c : Ascii.ascii) : Ascii.ascii :=
  let n := Ascii.nat_of_ascii c in
  if ((65 <=? n) && (n <=? 90))%nat then Ascii.ascii_of_nat (n + 32) else c.

Fixpoint lower (s : string) : string :=
  match s with
  | EmptyString => EmptyString
  | String c rest => String (lower_ascii c) (lower rest)
  end.

Definition headers_replaced (key value : string) (headers : Headers) : Headers :=
  <[lower key := value]>
    (filter (fun kv : string * string => lower kv.1 <> lower key) headers).

Definition headers_setitem (response : Response.t) (key value : string)
  : Exception + Response.t :=
  inr (Response.mk (Response.status_code response) (Response.content response)
         (headers_replaced key value (Response.headers response))).

(** [for key, value in headers.items(): response.headers[key] = value]: the
    response after the loop, and the exception that ended it early, if
    any; what was assigned before stays assigned. *)
Fixpoint assign_headers (items : list (string * string)) (response : Response.t)
  : Response.t * option Exception :=
  match items with
  | [] => (response, None)
  | (key, value) :: rest =>
      match headers_setitem response key value with
      | inr response' => assign_headers rest response'
      | inl e => (response, Some e)
      end
  end.

(** The middleware holds the engine it was given; in this model it is the
    only holder, so the engine is a field of the record. *)
Module RateLimitMiddleware.
Record t := mk {
  rate_limit_use_case : RateLimitUseCase;
  default_strategy_name : RateLimitStrategyName;
  excluded_paths : list string;
  enabled : bool
}.
End RateLimitMiddleware.

(** What the middleware reads of a request: [request.url.path] and
    [request.scope.get("endpoint")]. *)
Class RequestScope (Request Endpoint : Type) := {
  url_path : Request -> string;
  scope_endpoint : Request -> option Endpoint
}.

(** [get_rate_limit_config] of [frameworks/decorator.py], which is not among
    the sources: the configuration that [throttle] attached to the endpoint,
    if any. *)
Class Decorator (Request Endpoint : Type) := {
  get_rate_limit_config : Endpoint -> option (RateLimitConfig Request)
}.

Section Middleware.
Context {Request Store Endpoint : Type}.
Context `{!IRateLimitRepository Store} `{!KeyExtractionUseCase Request} `{!ToHeaders}.
Context `{!RequestScope Request Endpoint} `{!Decorator Request Endpoint}.

(** [RateLimitMiddleware.__init__]: [excluded_paths or []], and the engine's
    strategies are replaced only by a list that is not empty. *)
Definition RateLimitMiddleware__init__ (rate_limit_use_case : RateLimitUseCase)
    (default_strategies : option (list RateLimitStrategy.t))
    (default_strategy_name : RateLimitStrategyName)
    (excluded_paths : option (list string)) (enabled : bool)
  : M Store RateLimitMiddleware.t :=
  use_case <- match default_strategies with
              | Some ((_ :: _) as l) => update_strategies rate_limit_use_case l
              | _ => ret rate_limit_use_case
              end;;
  ret (RateLimitMiddleware.mk use_case default_strategy_name
         (match excluded_paths with Some l => l | None => [] end) enabled).

(** The loop of [_is_path_excluded]; [String.prefix a b] is
    [b.startswith(a)]. *)
Fixpoint path_excluded_loop (excluded_paths : list string) (path : string) : bool :=
  match excluded_paths with
  | [] => false
  | excluded_path :: rest =>
      if String.prefix excluded_path path then true else path_excluded_loop rest path
  end.

Definition _is_path_excluded (self : RateLimitMiddleware.t) (path : string) : bool :=
  path_excluded_loop (RateLimitMiddleware.excluded_paths self) path.

(** [_add_rate_limit_headers]: every header of the result is assigned on
    the response, in a [try] whose handler is [pass]: an exception ends the
    loop and is dropped, and the response is returned as it then is.  The
    items of the dictionary are taken in the order of the map, which is not
    the insertion order of Python; the order plays a part only when two
    names of the dictionary are equal without regard to case. *)
Definition _add_rate_limit_headers (response : Response.t) (result : RateLimitResult.t)
  : Response.t :=
  let headers := to_headers result in
  match assign_headers (map_to_list headers) response with
  | (response', None) => response'
  | (response', Some _) => response'   (* except Exception: pass *)
  end.

(** [except RateLimitHTTPException as e: handler(e)]: any other exception
    goes on to the enclosing handler. *)
Definition try_except_RateLimitHTTPException {A} (body : M Store A)
    (handler : Z -> Detail.t -> Headers -> M Store A) : M Store A :=
  fun w => match body w with
           | (inl (RateLimitHTTPException status_code detail headers), w') =>
               handler status_code detail headers w'
           | r => r
           end.

Definition dispatch (self : RateLimitMiddleware.t) (request : Request)
    (call_next : Request -> M Store Response.t) : M Store Response.t :=
  if negb (RateLimitMiddleware.enabled self) then call_next request
  else if _is_path_excluded self (url_path request) then call_next request
  else
    try_except
      (let endpoint := scope_endpoint request in
       let route_config :=
         match endpoint with
         | Some ep => get_rate_limit_config ep
         | None => None
         end in
       if match route_config with Some rc => negb (enabled rc) | None => false end
       then call_next request
       else
         try_except_RateLimitHTTPException
           (result <- check_rate_limit (RateLimitMiddleware.rate_limit_use_case self)
                        request route_config (RateLimitMiddleware.default_strategy_name self);;
            response <- call_next request;;
            ret (_add_rate_limit_headers response result))
           (fun status_code detail headers =>
              ret (JSONResponse status_code detail headers)))
      (fun e =>
         print [Piece (Lit "Rate limiting middleware error: "); StrExc e];;
         call_next request).

Definition middleware_update_strategies (self : RateLimitMiddleware.t)
    (strategies : list RateLimitStrategy.t) : M Store RateLimitMiddleware.t :=
  use_case <- update_strategies (RateLimitMiddleware.rate_limit_use_case self) strategies;;
  ret (RateLimitMiddleware.mk use_case (RateLimitMiddleware.default_strategy_name self)
         (RateLimitMiddleware.excluded_paths self) (RateLimitMiddleware.enabled self)).

Definition set_default_strategy (self : RateLimitMiddleware.t)
    (strategy_name : RateLimitStrategyName) : RateLimitMiddleware.t :=
  RateLimitMiddleware.mk (RateLimitMiddleware.rate_limit_use_case self) strategy_name
    (RateLimitMiddleware.excluded_paths self) (RateLimitMiddleware.enabled self).

Definition disable (self : RateLimitMiddleware.t) : RateLimitMiddleware.t :=
  RateLimitMiddleware.mk (RateLimitMiddleware.rate_limit_use_case self)
    (RateLimitMiddleware.default_strategy_name self)
    (RateLimitMiddleware.excluded_paths self) false.

Definition enable (self : RateLimitMiddleware.t) : RateLimitMiddleware.t :=
  RateLimitMiddleware.mk (RateLimitMiddleware.rate_limit_use_case self)
    (RateLimitMiddleware.default_strategy_name self)
    (RateLimitMiddleware.excluded_paths self) true.
End Middleware.

(** ** Observations used in the statements *)

Section Observations.
Context {Request Store : Type}.
Context `{!IRateLimitRepository Store} `{!KeyExtractionUseCase Request} `{!ToHeaders}.

(** Whether the configured bypass function, called on the request, returns
    true.  [false] when none is configured, when it returns false and when
    it raises. *)
Definition bypasses (request : Request) (config : option (RateLimitConfig Request)) : bool :=
  match config with
  | Some {| bypass_function := Some f |} =>
      match f request with inr b => b | inl _ => false end
  | _ => false
  end.

(** The warning that [check_rate_limit] logs when the bypass function
    raises [e], and the warnings a call logs for a request. *)
Definition bypass_warning (e : Exception) : LogRecord :=
  {| levelname := WARNING; msg := [Piece (Lit "Bypass function failed: "); StrExc e] |}.

Definition bypass_warnings (request : Request) (config : option (RateLimitConfig Request))
  : list LogRecord :=
  match config with
  | Some {| bypass_function := Some f |} =>
      match f request with inr _ => [] | inl e => [bypass_warning e] end
  | _ => []
  end.

(** The world after more records were logged, and after one more call of
    [increment_counter] left the store in state [s]. *)
Definition with_logged (w : World Store) (records : list LogRecord) : World Store :=
  {| repository := repository w; journal := journal w;
     logged := logged w ++ records; stdout := stdout w |}.

Definition after_increment (w : World Store) (s : Store) (key : string) (ttl : Z)
  : World Store :=
  {| repository := s; journal := journal w ++ [IncrementCounter key ttl];
     logged := logged w; stdout := stdout w |}.

Definition after_read (w : World Store) (s : Store) (key : string) : World Store :=
  {| repository := s; journal := journal w ++ [GetCurrentCount key];
     logged := logged w; stdout := stdout w |}.

Definition with_printed (w : World Store) (line : list logfragment) : World Store :=
  {| repository := repository w; journal := journal w;
     logged := logged w; stdout := stdout w ++ [line] |}.

(** The result that lines 123-134 of [check_rate_limit] build from the count
    [c] the store returned, and the signal that lines 139-148 raise for a
    result. *)
Definition decided_result (s : RateLimitStrategy.t) (key : string) (c : Z) : RateLimitResult.t :=
  RateLimitResult.mk (c <=? RateLimitStrategy.limit s)%Z key c
    (RateLimitStrategy.limit s) (RateLimitStrategy.ttl s)
    (if (c <=? RateLimitStrategy.limit s)%Z then None else Some (RateLimitStrategy.ttl s))
    (RateLimitStrategy.name s).

Definition exceeded_signal (config : option (RateLimitConfig Request))
    (s : RateLimitStrategy.t) (result : RateLimitResult.t) : Exception :=
  RateLimitHTTPException 429
    (Detail.mk (_get_error_message config result) (RateLimitResult.retry_after result)
       (RateLimitStrategy.limit s) (RateLimitStrategy.ttl s))
    (to_headers result).

(** What [check_rate_limit] raises in place of an exception that is not the
    exceeded signal, and the record it logs. *)
Definition check_failed : Exception :=
  RateLimitException [Lit "Rate limit check failed"] 500.

Definition check_failed_record (e : Exception) : LogRecord :=
  {| levelname := ERROR; msg := [Piece (Lit "Rate limit check failed: "); StrExc e] |}.

Definition usage_failed : Exception :=
  RateLimitException [Lit "Usage check failed"] 500.

Definition usage_failed_record (e : Exception) : LogRecord :=
  {| levelname := ERROR; msg := [Piece (Lit "Usage check failed: "); StrExc e] |}.

(** The same configuration with no bypass function. *)
Definition without_bypass (config : RateLimitConfig Request) : RateLimitConfig Request :=
  {| strategy := strategy config; strategy_name := strategy_name config;
     key_extraction := key_extraction config; bypass_function := None;
     custom_error_message := custom_error_message config; enabled := enabled config |}.

(** [n] calls of [check_rate_limit] with the same arguments, one after the
    other: their outcomes, first call first, and the final world. *)
Fixpoint check_repeatedly (n : nat) (self : RateLimitUseCase) (request : Request)
    (config : option (RateLimitConfig Request)) (default_strategy_name : RateLimitStrategyName)
    (w : World Store) : list (Exception + RateLimitResult.t) * World Store :=
  match n with
  | O => ([], w)
  | S n' =>
      let '(outcome, w1) := check_rate_limit self request config default_strategy_name w in
      let '(outcomes, w2) := check_repeatedly n' self request config default_strategy_name w1 in
      (outcome :: outcomes, w2)
  end.

(** The increment contract of the counter store, over the count [count_of]
    that the store holds for a key, while no window expires: an increment
    returns the count plus one and leaves the key at that count. *)
Record IncrementContract (count_of : Store -> string -> Z) : Prop := {
  increment_returns : forall s key ttl,
    fst (increment_counter s key ttl) = inr (count_of s key + 1);
  increment_stores : forall s key ttl,
    count_of (snd (increment_counter s key ttl)) key = count_of s key + 1
}.
End Observations.

Section RouteObservations.
Context {Request Endpoint : Type}.
Context `{!RequestScope Request Endpoint} `{!Decorator Request Endpoint}.

(** The configuration that [dispatch] finds for the request's endpoint, and
    whether it switches rate limiting off for the route. *)
Definition route_config_of (request : Request) : option (RateLimitConfig Request) :=
  match scope_endpoint request with
  | Some ep => get_rate_limit_config ep
  | None => None
  end.

Definition route_disabled (request : Request) : bool :=
  match route_config_of request with
  | Some rc => negb (enabled rc)
  | None => false
  end.

(** The line that [dispatch] prints for an exception. *)
Definition middleware_error_line (e : Exception) : list logfragment :=
  [Piece (Lit "Rate limiting middleware error: "); StrExc e].
End RouteObservations.

(** ** Concrete collaborators *)

(** Modelled from the spec: [MemoryRateLimitRepository]
    ([adapters/memory_repository.py] is not among the sources), within one
    window: [increment_counter] creates the key at 1 or adds 1 to it and
    returns the new count, [get_current_count] returns the count, 0 for a
    key that does not exist, and changes nothing. *)
Definition MemoryStore := gmap string Z.

Definition memory_count (s : MemoryStore) (key : string) : Z := default 0 (s !! key).

#[global] Instance MemoryRateLimitRepository : IRateLimitRepository MemoryStore := {
  increment_counter s key ttl :=
    let count := memory_count s key + 1 in (inr count, <[key := count]> s);
  get_current_count s key := (inr (memory_count s key), s)
}.

(** A store that cannot be reached: both operations raise. *)
Inductive UnreachableStore := unreachable.

Definition ConnectionError : Exception := OtherException "ConnectionError".

#[global] Instance UnreachableRepository : IRateLimitRepository UnreachableStore := {
  increment_counter s key ttl := (inl ConnectionError, s);
  get_current_count s key := (inl ConnectionError, s)
}.

(** A request as the examples use it: the peer address, the path, the name
    of the endpoint the router matched, and the [User-Role] header. *)
Record SampleRequest := {
  client_host : string;
  path : string;
  endpoint : option string;
  user_role : option string
}.

(** Modelled from the spec: a key extractor after section 4.1, for the
    sample requests: the peer address for [IP], the [extractor] for
    [CUSTOM], and for the other types, whose field a sample request does
    not carry, the default value or a failure. *)
#[global] Instance SampleKeyExtraction : KeyExtractionUseCase SampleRequest := {
  extract_key request ks :=
    match type ks with
    | KeyExtractionType.IP => inr ("rate_limit:ip:" +:+ client_host request)
    | KeyExtractionType.CUSTOM =>
        match extractor ks with
        | Some f => f request
        | None => inl (RateLimitException [Lit "Custom extractor missing"] 500)
        end
    | _ =>
        match default_value ks with
        | Some d => inr d
        | None => inl (RateLimitException [Lit "Key extraction failed"] 400)
        end
    end
}.

(** Modelled from the spec: [to_headers] after section 6, the numbers kept
    as the digits of their decimal notation. *)
Definition digits (z : Z) : string := pretty.pretty z.

#[global] Instance SpecToHeaders : ToHeaders := {
  to_headers result :=
    let base : Headers :=
      <["X-RateLimit-Limit" := digits (RateLimitResult.limit result)]>
      (<["X-RateLimit-Remaining" :=
           digits (Z.max (RateLimitResult.limit result - RateLimitResult.current_count result) 0)]>
      (<["X-RateLimit-Reset" := digits (RateLimitResult.ttl result)]>
      (<["X-RateLimit-Used" := digits (RateLimitResult.current_count result)]> ∅))) in
    if RateLimitResult.allowed result then base
    else match RateLimitResult.retry_after result with
         | Some r => <["Retry-After" := digits r]> base
         | None => base
         end
}.

#[global] Instance SampleRequestScope : RequestScope SampleRequest string := {
  url_path := path;
  scope_endpoint := endpoint
}.

(** [bypass_for_admins] of [examples/simple_example.py]. *)
Definition bypass_for_admins (request : SampleRequest) : Exception + bool :=
  inr (match user_role request with
       | Some role => String.eqb role "admin"
       | None => false
       end).

(** A bypass function that raises. *)
Definition bypass_broken (request : SampleRequest) : Exception + bool :=
  inl (OtherException "KeyError").

(** The configuration that [throttle(limit=5, ttl=60, bypass_function=...,
    custom_error_message=...)] attaches to [/api/admin] in the example. *)
Definition admin_config (bypass : SampleRequest -> Exception + bool)
  : RateLimitConfig SampleRequest :=
  {| strategy := Some (RateLimitStrategy.mk CUSTOM 5 60);
     strategy_name := None;
     key_extraction := None;
     bypass_function := Some bypass;
     custom_error_message := Some "Admin endpoint is rate limited for non-admin users";
     enabled := true |}.

#[global] Instance SampleDecorator : Decorator SampleRequest string := {
  get_rate_limit_config ep :=
    if String.eqb ep "admin_endpoint" then Some (admin_config bypass_for_admins) else None
}.

Definition sample_request : SampleRequest :=
  {| client_host := "10.0.0.7"; path := "/api/data"; endpoint := None; user_role := None |}.

Definition admin_request : SampleRequest :=
  {| client_host := "10.0.0.7"; path := "/api/admin"; endpoint := Some "admin_endpoint";
     user_role := Some "admin" |}.

Definition fresh_world {Store : Type} (s : Store) : World Store :=
  {| repository := s; journal := []; logged := []; stdout := [] |}.

(** A handler that answers 200. *)
Definition ok_handler {Store : Type} (request : SampleRequest) : M Store Response.t :=
  ret (Response.mk 200 (Body "ok") ∅).

Definition default_engine : RateLimitUseCase := RateLimitUseCase__init__ None.

(** The key that [SampleKeyExtraction] gives for the peer of the sample
    requests, the default SHORT strategy, and a call with no route
    configuration. *)
Definition sample_key : string := "rate_limit:ip:10.0.0.7".

Definition short_strategy : RateLimitStrategy.t := RateLimitStrategy.mk SHORT 3 60.

Definition no_config : option (RateLimitConfig SampleRequest) := None.

Definition medium_strategy : RateLimitStrategy.t := RateLimitStrategy.mk MEDIUM 20 600.

Definition custom_strategy : RateLimitStrategy.t := RateLimitStrategy.mk CUSTOM 5 60.

Definition KeyError : Exception := OtherException "KeyError".

(** A request for a path below an excluded one. *)
Definition healthcheck_request : SampleRequest :=
  {| client_host := "10.0.0.7"; path := "/healthcheck"; endpoint := None;
     user_role := None |}.

Definition sample_middleware : RateLimitMiddleware.t :=
  RateLimitMiddleware.mk default_engine MEDIUM ["/health"; "/docs"; "/openapi.json"] true.

(** ** Further observations *)

Section ReadObservations.
Context {Store : Type} `{!IRateLimitRepository Store}.

(** The read contract of the counter store, over the count [count_of]: a
    read returns the count of the key and leaves the store as it is. *)
Record ReadContract (count_of : Store -> string -> Z) : Prop := {
  read_returns : forall s key, get_current_count s key = (inr (count_of s key), s)
}.
End ReadObservations.

(** The message that [_get_error_message] generates for a limit, a window
    and the seconds to wait. *)
Definition generated_message (limit ttl : Z) (retry_after : option Z) : fstring :=
  [ Lit "Rate limit exceeded. Maximum "; StrInt limit;
    Lit " requests per "; StrInt ttl;
    Lit " seconds. Please try again in "; StrOptInt retry_after;
    Lit " seconds." ].

(** The last strategy of a list that carries the name [n]. *)
Definition last_named (n : RateLimitStrategyName) (l : list RateLimitStrategy.t)
  : option RateLimitStrategy.t :=
  find (fun s => bool_decide (RateLimitStrategy.name s = n)) (rev l).

(** ** Further concrete collaborators *)

(** A route whose decorator switches rate limiting off. *)
Definition switched_off_config : RateLimitConfig SampleRequest :=
  {| strategy := None; strategy_name := Some SHORT; key_extraction := None;
     bypass_function := None; custom_error_message := None; enabled := false |}.

Definition SwitchedOffDecorator : Decorator SampleRequest string := {|
  get_rate_limit_config ep := Some switched_off_config
|}.

Definition internal_request : SampleRequest :=
  {| client_host := "10.0.0.7"; path := "/api/internal"; endpoint := Some "internal";
     user_role := None |}.

(** A handler that raises, and one that answers with a header of its own. *)
Definition failing_handler {Store : Type} (request : SampleRequest) : M Store Response.t :=
  raise (OtherException "ValueError").

Definition tagged_handler {Store : Type} (request : SampleRequest) : M Store Response.t :=
  ret (Response.mk 200 (Body "ok")
         (<["X-RateLimit-Used" := "stale"]> (<["Content-Type" := "text/plain"]> ∅))).

(** The result of a first allowed request under MEDIUM, and a response
    that already carries a usage header, under two spellings of its name,
    and a content type. *)
Definition first_result : RateLimitResult.t :=
  RateLimitResult.mk true sample_key 1 20 600 None MEDIUM.

Definition stale_response : Response.t :=
  Response.mk 200 (Body "ok")
    (<["x-ratelimit-used" := "stale"]>
       (<["X-RateLimit-Used" := "old"]> (<["content-type" := "text/plain"]> ∅))).

(** A bypass function that returns false. *)
Definition bypass_nobody (request : SampleRequest) : Exception + bool := inr false.

(** A configuration that asks for a header the sample requests do not
    carry, with no default value: key extraction fails. *)
Definition header_config : RateLimitConfig SampleRequest :=
  {| strategy := None; strategy_name := None;
     key_extraction := Some {| type := KeyExtractionType.HEADER; field := Some "X-API-Key";
                               default_value := None; extractor := None |};
     bypass_function := None; custom_error_message := None; enabled := true |}.

(** Two strategies under one name. *)
Definition short_twice : list RateLimitStrategy.t :=
  [RateLimitStrategy.mk SHORT 3 60; RateLimitStrategy.mk LONG 100 3600;
   RateLimitStrategy.mk SHORT 5 30].

(** * Properties *)

(** ** The monad and the steps of [check_rate_limit] *)

Section EngineFacts.
Context {Request Store : Type}.
Context `{!IRateLimitRepository Store} `{!KeyExtractionUseCase Request} `{!ToHeaders}.

Implicit Types (self : RateLimitUseCase) (request : Request).
Implicit Types (config : option (RateLimitConfig Request)) (w : World Store).

Lemma with_logged_nil w : with_logged w [] = w.
Proof. destruct w; unfold with_logged; simpl. by rewrite app_nil_r. Qed.

Lemma with_logged_app w l1 l2 :
  with_logged (with_logged w l1) l2 = with_logged w (l1 ++ l2).
Proof. unfold with_logged; simpl. by rewrite app_assoc. Qed.

(** The bypass step never raises: it answers [bypasses] and logs
    [bypass_warnings]. *)
Lemma evaluate_bypass_spec request config w :
  evaluate_bypass request config w
  = (inr (bypasses request config), with_logged w (bypass_warnings request config)).
Proof.
  unfold evaluate_bypass, bypasses, bypass_warnings.
  destruct config as [[? ? ? [f|] ? ?]|]; simpl;
    try (unfold ret; by rewrite with_logged_nil).
  unfold try_except, lift. destruct (f request) as [e|b]; simpl.
  - reflexivity.
  - by rewrite with_logged_nil.
Qed.

(** The increment and the decision, for each answer of the store. *)
Lemma perform_check_spec config s k w :
  perform_check config s k w
  = let '(r, st) := increment_counter (repository w) k (RateLimitStrategy.ttl s) in
    let w' := after_increment w st k (RateLimitStrategy.ttl s) in
    match r with
    | inl e => (inl e, w')
    | inr c =>
        if (c <? 0)%Z then (inl invalid_count, w')
        else if (c <=? RateLimitStrategy.limit s)%Z then (inr (decided_result s k c), w')
        else (inl (exceeded_signal config s (decided_result s k c)), w')
    end.
Proof.
  unfold perform_check, bind, repository_increment_counter, after_increment,
    exceeded_signal, decided_result, lift, RateLimitResult__init__.
  destruct (increment_counter _ _ _) as [[e|c] st]; simpl; [reflexivity|].
  destruct (c <? 0)%Z; [reflexivity|].
  destruct (c <=? RateLimitStrategy.limit s)%Z; reflexivity.
Qed.

(** The call up to the bypass step, when resolution and extraction succeed. *)
Lemma check_rate_limit_steps self request config d w s k :
  _determine_strategy self config d = inr s ->
  extract_key request (_determine_key_strategy config) = inr k ->
  check_rate_limit self request config d w
  = if bypasses request config
    then (inr (RateLimitResult.mk true k 0 (RateLimitStrategy.limit s)
                 (RateLimitStrategy.ttl s) None (RateLimitStrategy.name s)),
          with_logged w (bypass_warnings request config))
    else
      match perform_check config s k (with_logged w (bypass_warnings request config)) with
      | (inr r, w') => (inr r, w')
      | (inl e, w') =>
          if is_RateLimitHTTPException e then (inl e, w')
          else (inl check_failed, with_logged w' [check_failed_record e])
      end.
Proof.
  intros Hs Hk. unfold check_rate_limit, try_except, bind, lift.
  rewrite Hs, Hk, evaluate_bypass_spec.
  destruct (bypasses request config); [reflexivity|].
  destruct (perform_check _ _ _ _) as [[e|r] w']; [|reflexivity].
  destruct (is_RateLimitHTTPException e); reflexivity.
Qed.

(** A call that reaches the store, for each answer of the store. *)
Lemma check_rate_limit_reaches_store self request config d w s k :
  _determine_strategy self config d = inr s ->
  extract_key request (_determine_key_strategy config) = inr k ->
  bypasses request config = false ->
  check_rate_limit self request config d w
  = let '(r, st) := increment_counter (repository w) k (RateLimitStrategy.ttl s) in
    let w' := after_increment (with_logged w (bypass_warnings request config)) st k
                (RateLimitStrategy.ttl s) in
    match r with
    | inr c =>
        if (c <? 0)%Z
        then (inl check_failed, with_logged w' [check_failed_record invalid_count])
        else if (c <=? RateLimitStrategy.limit s)%Z then (inr (decided_result s k c), w')
        else (inl (exceeded_signal config s (decided_result s k c)), w')
    | inl e =>
        if is_RateLimitHTTPException e then (inl e, w')
        else (inl check_failed, with_logged w' [check_failed_record e])
    end.
Proof.
  intros Hs Hk Hb. rewrite (check_rate_limit_steps _ _ _ _ _ s k Hs Hk), Hb.
  rewrite perform_check_spec. simpl repository.
  destruct (increment_counter _ _ _) as [[e|c] st]; [reflexivity|].
  destruct (c <? 0)%Z; [reflexivity|].
  destruct (c <=? RateLimitStrategy.limit s)%Z; reflexivity.
Qed.

(** A read of the usage, for each answer of the store. *)
Lemma get_current_usage_spec self request config d w s k :
  _determine_strategy self config d = inr s ->
  extract_key request (_determine_key_strategy config) = inr k ->
  get_current_usage self request config d w
  = let '(r, st) := get_current_count (repository w) k in
    let w' := after_read w st k in
    match r with
    | inr c =>
        if (c <? 0)%Z
        then (inl usage_failed, with_logged w' [usage_failed_record invalid_count])
        else
          (inr (RateLimitResult.mk (c <? RateLimitStrategy.limit s)%Z k c
                  (RateLimitStrategy.limit s) (RateLimitStrategy.ttl s)
                  (if (c <? RateLimitStrategy.limit s)%Z then None
                   else Some (RateLimitStrategy.ttl s))
                  (RateLimitStrategy.name s)), w')
    | inl e => (inl usage_failed, with_logged w' [usage_failed_record e])
    end.
Proof.
  intros Hs Hk.
  unfold get_current_usage, try_except, bind, lift, repository_get_current_count,
    RateLimitResult__init__.
  rewrite Hs, Hk. destruct (get_current_count _ _) as [[e|c] st]; simpl; [reflexivity|].
  destruct (c <? 0)%Z; [reflexivity|].
  destruct (c <? RateLimitStrategy.limit s)%Z; reflexivity.
Qed.

(** ** Calls against a store that keeps the increment contract *)

Lemma check_rate_limit_counts count_of self request config d w s k :
  IncrementContract count_of ->
  _determine_strategy self config d = inr s ->
  extract_key request (_determine_key_strategy config) = inr k ->
  bypasses request config = false ->
  let c := (count_of (repository w) k + 1)%Z in
  fst (check_rate_limit self request config d w)
  = (if (c <? 0)%Z then inl check_failed
     else if (c <=? RateLimitStrategy.limit s)%Z then inr (decided_result s k c)
     else inl (exceeded_signal config s (decided_result s k c)))
  /\ count_of (repository (snd (check_rate_limit self request config d w))) k = c.
Proof.
  intros [Hret Hsto] Hs Hk Hb c.
  rewrite (check_rate_limit_reaches_store _ _ _ _ _ s k Hs Hk Hb).
  specialize (Hret (repository w) k (RateLimitStrategy.ttl s)).
  specialize (Hsto (repository w) k (RateLimitStrategy.ttl s)).
  destruct (increment_counter _ _ _) as [[e|c'] st]; simpl in Hret, Hsto; [discriminate|].
  injection Hret as ->. fold c.
  destruct (c <? 0)%Z; [simpl; auto|].
  destruct (c <=? RateLimitStrategy.limit s)%Z; simpl; auto.
Qed.

Lemma check_repeatedly_outcomes count_of self request config d s k :
  IncrementContract count_of ->
  _determine_strategy self config d = inr s ->
  extract_key request (_determine_key_strategy config) = inr k ->
  bypasses request config = false ->
  forall n w i, (i < n)%nat ->
    (0 <= count_of (repository w) k)%Z ->
    let c := (count_of (repository w) k + Z.of_nat i + 1)%Z in
    fst (check_repeatedly n self request config d w) !! i
    = Some (if (c <=? RateLimitStrategy.limit s)%Z then inr (decided_result s k c)
            else inl (exceeded_signal config s (decided_result s k c))).
Proof.
  intros Hc Hs Hk Hb. induction n as [|n IH]; intros w i Hi Hpos; [lia|].
  simpl check_repeatedly.
  destruct (check_rate_limit_counts count_of self request config d w s k Hc Hs Hk Hb)
    as [Hout Hcount].
  replace (count_of (repository w) k + 1 <? 0)%Z with false in Hout
    by (symmetry; apply Z.ltb_ge; lia).
  destruct (check_rate_limit self request config d w) as [outcome w1].
  simpl in Hout, Hcount.
  specialize (IH w1).
  destruct (check_repeatedly n self request config d w1) as [outcomes w2].
  destruct i as [|i]; cbv zeta.
  - change (Z.of_nat 0) with 0%Z. rewrite Z.add_0_r. simpl. by rewrite Hout.
  - replace (count_of (repository w) k + Z.of_nat (S i) + 1)%Z
      with (count_of (repository w1) k + Z.of_nat i + 1)%Z by lia.
    simpl. simpl in IH. apply IH; lia.
Qed.

(** C1.  A call of [check_rate_limit] that reaches the store (strategy [s]
    resolved, key [k] extracted, no bypass) and receives the count [c] from
    [increment_counter] builds a result whose [allowed] flag is true exactly
    when [c <= limit], with [retry_after = ttl] when it is false; the call
    returns that result when it is allowed and raises the exceeded signal
    built from it otherwise.  The count is one the constructor of the
    result accepts, that is, not negative.  Hence, against a store that
    keeps the
    increment contract and holds no count for the key, with [limit = L] the
    first [L] calls return [allowed = true] and call [L+1] raises the
    exceeded signal of a result with [allowed = false] and
    [retry_after = ttl]. *)
Theorem check_rate_limit_inclusive_limit self request config d s k :
  _determine_strategy self config d = inr s ->
  extract_key request (_determine_key_strategy config) = inr k ->
  bypasses request config = false ->
  (forall w c st,
     increment_counter (repository w) k (RateLimitStrategy.ttl s) = (inr c, st) ->
     (0 <= c)%Z ->
     exists result,
       RateLimitResult.current_count result = c /\
       (RateLimitResult.allowed result = true <-> (c <= RateLimitStrategy.limit s)%Z) /\
       (RateLimitResult.allowed result = false ->
        RateLimitResult.retry_after result = Some (RateLimitStrategy.ttl s)) /\
       fst (check_rate_limit self request config d w)
       = if RateLimitResult.allowed result then inr result
         else inl (RateLimitHTTPException 429
                     (Detail.mk (_get_error_message config result)
                        (RateLimitResult.retry_after result)
                        (RateLimitStrategy.limit s) (RateLimitStrategy.ttl s))
                     (to_headers result)))
  /\
  (forall count_of w (L : nat),
     IncrementContract count_of ->
     count_of (repository w) k = 0%Z ->
     RateLimitStrategy.limit s = Z.of_nat L ->
     let outcomes := fst (check_repeatedly (S L) self request config d w) in
     (forall i, (i < L)%nat ->
        exists result,
          outcomes !! i = Some (inr result) /\
          RateLimitResult.allowed result = true /\
          RateLimitResult.current_count result = (Z.of_nat i + 1)%Z) /\
     (exists result,
        outcomes !! L
        = Some (inl (RateLimitHTTPException 429
                       (Detail.mk (_get_error_message config result)
                          (Some (RateLimitStrategy.ttl s))
                          (RateLimitStrategy.limit s) (RateLimitStrategy.ttl s))
                       (to_headers result))) /\
        RateLimitResult.allowed result = false /\
        RateLimitResult.retry_after result = Some (RateLimitStrategy.ttl s))).
Proof.
  intros Hs Hk Hb. split.
  - intros w c st Hinc Hpos. exists (decided_result s k c).
    rewrite (check_rate_limit_reaches_store _ _ _ _ _ s k Hs Hk Hb), Hinc.
    replace (c <? 0)%Z with false by (symmetry; apply Z.ltb_ge; lia).
    unfold decided_result; simpl. repeat split.
    + apply Z.leb_le.
    + apply Z.leb_le.
    + intros Hf. by rewrite Hf.
    + destruct (c <=? RateLimitStrategy.limit s)%Z eqn:E; reflexivity.
  - intros count_of w L Hc Hfresh HL outcomes. subst outcomes. split.
    + intros i Hi.
      rewrite (check_repeatedly_outcomes count_of _ _ _ _ s k Hc Hs Hk Hb (S L) w i) by lia.
      rewrite Hfresh, HL.
      replace (0 + Z.of_nat i + 1 <=? Z.of_nat L)%Z with true
        by (symmetry; apply Z.leb_le; lia).
      eexists; split; [reflexivity|]. unfold decided_result; simpl. split; [|lia].
      rewrite HL. apply Z.leb_le; lia.
    + rewrite (check_repeatedly_outcomes count_of _ _ _ _ s k Hc Hs Hk Hb (S L) w L) by lia.
      rewrite Hfresh, HL.
      assert (Hgt : (0 + Z.of_nat L + 1 <=? Z.of_nat L)%Z = false)
        by (apply Z.leb_gt; lia).
      rewrite Hgt. exists (decided_result s k (0 + Z.of_nat L + 1)).
      unfold exceeded_signal, decided_result; simpl.
      rewrite HL, Hgt. auto.
Qed.

(** ** Failures before the store is reached *)

Lemma check_rate_limit_resolution_fails self request config d w e :
  _determine_strategy self config d = inl e ->
  check_rate_limit self request config d w
  = if is_RateLimitHTTPException e then (inl e, w)
    else (inl check_failed, with_logged w [check_failed_record e]).
Proof.
  intros Hs. unfold check_rate_limit, try_except, bind, lift. rewrite Hs.
  destruct (is_RateLimitHTTPException e); reflexivity.
Qed.

Lemma check_rate_limit_extraction_fails self request config d w s e :
  _determine_strategy self config d = inr s ->
  extract_key request (_determine_key_strategy config) = inl e ->
  check_rate_limit self request config d w
  = if is_RateLimitHTTPException e then (inl e, w)
    else (inl check_failed, with_logged w [check_failed_record e]).
Proof.
  intros Hs Hk. unfold check_rate_limit, try_except, bind, lift. rewrite Hs, Hk.
  destruct (is_RateLimitHTTPException e); reflexivity.
Qed.

Lemma get_current_usage_extraction_fails self request config d w s e :
  _determine_strategy self config d = inr s ->
  extract_key request (_determine_key_strategy config) = inl e ->
  get_current_usage self request config d w
  = (inl usage_failed, with_logged w [usage_failed_record e]).
Proof.
  intros Hs Hk. unfold get_current_usage, try_except, bind, lift. by rewrite Hs, Hk.
Qed.

(** The bypass function plays no part in resolution, in the choice of the
    key strategy or in the error message. *)
Lemma _determine_strategy_without_bypass self (cfg : RateLimitConfig Request) d :
  _determine_strategy self (Some (without_bypass cfg)) d
  = _determine_strategy self (Some cfg) d.
Proof. reflexivity. Qed.

Lemma _determine_key_strategy_without_bypass (cfg : RateLimitConfig Request) :
  _determine_key_strategy (Some (without_bypass cfg)) = _determine_key_strategy (Some cfg).
Proof. by destruct cfg as [? ? [?|] ? ? ?]. Qed.

Lemma perform_check_without_bypass (cfg : RateLimitConfig Request) s k w :
  perform_check (Some (without_bypass cfg)) s k w = perform_check (Some cfg) s k w.
Proof.
  rewrite !perform_check_spec. unfold exceeded_signal, _get_error_message.
  by destruct cfg as [? ? ? ? [?|] ?].
Qed.

(** ** The two comparisons *)

(** C2.  For a count [c] that the constructor of the result accepts, that
    is, one that is not negative, and one strategy: [get_current_usage],
    when the store reads [c], reports [allowed] exactly when [c < limit];
    [check_rate_limit], when the increment returns [c], decides [allowed]
    exactly when [c <= limit].  At [c = limit] the usage already reports
    [allowed = false] while the check still returns [allowed = true]. *)
Theorem usage_exclusive_check_inclusive self request config d s k c :
  _determine_strategy self config d = inr s ->
  extract_key request (_determine_key_strategy config) = inr k ->
  (0 <= c)%Z ->
  (forall w st,
     get_current_count (repository w) k = (inr c, st) ->
     exists usage,
       fst (get_current_usage self request config d w) = inr usage /\
       RateLimitResult.current_count usage = c /\
       (RateLimitResult.allowed usage = true <-> (c < RateLimitStrategy.limit s)%Z) /\
       (c = RateLimitStrategy.limit s -> RateLimitResult.allowed usage = false)) /\
  (forall w st,
     bypasses request config = false ->
     increment_counter (repository w) k (RateLimitStrategy.ttl s) = (inr c, st) ->
     exists result,
       RateLimitResult.current_count result = c /\
       (RateLimitResult.allowed result = true <-> (c <= RateLimitStrategy.limit s)%Z) /\
       fst (check_rate_limit self request config d w)
       = (if RateLimitResult.allowed result then inr result
          else inl (exceeded_signal config s result)) /\
       (c = RateLimitStrategy.limit s ->
        fst (check_rate_limit self request config d w) = inr result /\
        RateLimitResult.allowed result = true)).
Proof.
  intros Hs Hk Hpos.
  assert (Hvalid : (c <? 0)%Z = false) by (apply Z.ltb_ge; lia).
  split.
  - intros w st Hget.
    rewrite (get_current_usage_spec self request config d w s k Hs Hk), Hget.
    cbv zeta. rewrite Hvalid. eexists; split; [reflexivity|]. simpl.
    split; [reflexivity|]. split; [apply Z.ltb_lt|].
    intros ->. apply Z.ltb_irrefl.
  - intros w st Hb Hinc.
    rewrite (check_rate_limit_reaches_store self request config d w s k Hs Hk Hb), Hinc.
    cbv zeta. rewrite Hvalid. exists (decided_result s k c).
    split; [reflexivity|]. split; [apply Z.leb_le|]. split.
    + unfold decided_result; simpl.
      destruct (c <=? RateLimitStrategy.limit s)%Z; reflexivity.
    + intros ->. rewrite Z.leb_refl. split; [reflexivity|].
      unfold decided_result; simpl. apply Z.leb_refl.
Qed.

(** ** Bypass *)

(** Closes a goal that holds by computation once the resolved strategy and
    the extracted key are identified with the ones at hand. *)
Ltac same_outcomes :=
  try match goal with
      | H1 : inr _ = inr _, H2 : inr _ = inr _ |- _ =>
          injection H1 as <-; injection H2 as <-
      end;
  reflexivity.

(** C6.  When the bypass function of the configuration returns true (the
    strategy [s] being resolved and the key [k] extracted, which come
    first), [check_rate_limit] returns [allowed = true],
    [current_count = 0] with the limit, ttl and name of [s], and leaves the
    world as it was: the store keeps its state and no call was issued to
    it. *)
Theorem bypass_true_skips_store self request (cfg : RateLimitConfig Request) f d w s k :
  bypass_function cfg = Some f ->
  f request = inr true ->
  _determine_strategy self (Some cfg) d = inr s ->
  extract_key request (_determine_key_strategy (Some cfg)) = inr k ->
  check_rate_limit self request (Some cfg) d w
  = (inr (RateLimitResult.mk true k 0 (RateLimitStrategy.limit s)
            (RateLimitStrategy.ttl s) None (RateLimitStrategy.name s)), w).
Proof.
  intros Hf Ht Hs Hk.
  rewrite (check_rate_limit_steps _ _ _ _ _ s k Hs Hk).
  unfold bypasses, bypass_warnings. destruct cfg as [? ? ? bf ? ?]; simpl in Hf; subst bf.
  rewrite Ht. by rewrite with_logged_nil.
Qed.

(** C5.  When the bypass function of the configuration raises [e], the call
    has the outcome of the call with no bypass function configured, and
    leaves the store, the journal of store calls and the standard output as
    that call does.  When the bypass step is reached (strategy resolved, key
    extracted), the call is that call made after the warning was logged, and
    it issues one [increment_counter] for the key and no other store
    call. *)
Theorem bypass_failure_falls_through self request (cfg : RateLimitConfig Request) f e d w :
  bypass_function cfg = Some f ->
  f request = inl e ->
  let raising := check_rate_limit self request (Some cfg) d w in
  let plain := check_rate_limit self request (Some (without_bypass cfg)) d w in
  fst raising = fst plain /\
  repository (snd raising) = repository (snd plain) /\
  journal (snd raising) = journal (snd plain) /\
  stdout (snd raising) = stdout (snd plain) /\
  (forall s k,
     _determine_strategy self (Some cfg) d = inr s ->
     extract_key request (_determine_key_strategy (Some cfg)) = inr k ->
     raising = check_rate_limit self request (Some (without_bypass cfg)) d
                 (with_logged w [bypass_warning e]) /\
     journal (snd raising)
     = (journal w ++ [IncrementCounter k (RateLimitStrategy.ttl s)])%list).
Proof.
  intros Hf He raising plain.
  assert (Hb : bypasses request (Some cfg) = false).
  { unfold bypasses. destruct cfg as [? ? ? bf ? ?]; simpl in Hf; subst bf. by rewrite He. }
  assert (Hw : bypass_warnings request (Some cfg) = [bypass_warning e]).
  { unfold bypass_warnings. destruct cfg as [? ? ? bf ? ?]; simpl in Hf; subst bf.
    by rewrite He. }
  assert (Hb' : bypasses request (Some (without_bypass cfg)) = false) by reflexivity.
  assert (Hw' : bypass_warnings request (Some (without_bypass cfg)) = []) by reflexivity.
  subst raising plain.
  destruct (_determine_strategy self (Some cfg) d) as [e1|s] eqn:Hs.
  { rewrite (check_rate_limit_resolution_fails self request (Some cfg) d w e1 Hs).
    rewrite (check_rate_limit_resolution_fails self request (Some (without_bypass cfg))
               d w e1 Hs).
    repeat split; discriminate. }
  destruct (extract_key request (_determine_key_strategy (Some cfg))) as [e2|k] eqn:Hk.
  { assert (Hk' : extract_key request (_determine_key_strategy (Some (without_bypass cfg)))
                  = inl e2) by (by rewrite _determine_key_strategy_without_bypass).
    rewrite (check_rate_limit_extraction_fails self request (Some cfg) d w s e2 Hs Hk).
    rewrite (check_rate_limit_extraction_fails self request (Some (without_bypass cfg))
               d w s e2 Hs Hk').
    repeat split; discriminate. }
  assert (Hs' : _determine_strategy self (Some (without_bypass cfg)) d = inr s)
    by exact Hs.
  assert (Hk' : extract_key request (_determine_key_strategy (Some (without_bypass cfg)))
                = inr k) by (by rewrite _determine_key_strategy_without_bypass).
  rewrite (check_rate_limit_steps _ _ (Some cfg) _ _ s k Hs Hk), Hb, Hw.
  rewrite !(check_rate_limit_steps _ _ (Some (without_bypass cfg)) _ _ s k Hs' Hk'), Hb', Hw'.
  rewrite !with_logged_nil, !perform_check_without_bypass, !perform_check_spec.
  simpl repository.
  destruct (increment_counter (repository w) k (RateLimitStrategy.ttl s)) as [[e3|c] st].
  - cbv beta iota zeta.
    destruct (is_RateLimitHTTPException e3); repeat split; same_outcomes.
  - cbv beta iota zeta. destruct (c <? 0)%Z; [repeat split; same_outcomes|].
    destruct (c <=? RateLimitStrategy.limit s)%Z; repeat split; same_outcomes.
Qed.

(** ** Failures of the collaborators *)

(** C3, as the code has it.  A failure of key extraction or of the store
    does not leave the engine as it was raised.  [get_current_usage]
    catches every exception, [check_rate_limit] every exception that is not
    of its own class [RateLimitHTTPException] (which goes through
    unchanged); the exception is logged at error level and a
    [RateLimitException] with status 500 and the fixed message
    ["Usage check failed"], respectively ["Rate limit check failed"], is
    raised in its place. *)
Theorem collaborator_failures_are_replaced self request config d w s :
  _determine_strategy self config d = inr s ->
  (forall e,
     extract_key request (_determine_key_strategy config) = inl e ->
     get_current_usage self request config d w
     = (inl usage_failed, with_logged w [usage_failed_record e]) /\
     check_rate_limit self request config d w
     = if is_RateLimitHTTPException e then (inl e, w)
       else (inl check_failed, with_logged w [check_failed_record e])) /\
  (forall k e st,
     extract_key request (_determine_key_strategy config) = inr k ->
     (get_current_count (repository w) k = (inl e, st) ->
      get_current_usage self request config d w
      = (inl usage_failed, with_logged (after_read w st k) [usage_failed_record e])) /\
     (bypasses request config = false ->
      increment_counter (repository w) k (RateLimitStrategy.ttl s) = (inl e, st) ->
      check_rate_limit self request config d w
      = let w' := after_increment (with_logged w (bypass_warnings request config)) st k
                    (RateLimitStrategy.ttl s) in
        if is_RateLimitHTTPException e then (inl e, w')
        else (inl check_failed, with_logged w' [check_failed_record e]))).
Proof.
  intros Hs. split.
  - intros e Hk. split.
    + by apply get_current_usage_extraction_fails with s.
    + by apply check_rate_limit_extraction_fails with s.
  - intros k e st Hk. split.
    + intros Hget. by rewrite (get_current_usage_spec _ _ _ _ _ s k Hs Hk), Hget.
    + intros Hb Hinc.
      by rewrite (check_rate_limit_reaches_store _ _ _ _ _ s k Hs Hk Hb), Hinc.
Qed.

(** ** The registry *)

(** C7.  Resolution takes the first that is present: the strategy of the
    configuration, whatever the registry holds; else the strategy name of
    the configuration, looked up in the registry, with the unknown-strategy
    error when the registry has no such name; else the default name, looked
    up in the registry, with the error when the registry has no such
    name. *)
Theorem strategy_resolution_order self d :
  (forall s sn (ke : option (KeyExtractionStrategy Request))
       (bf : option (Request -> Exception + bool)) cem en,
     _determine_strategy self
       (Some {| strategy := Some s; strategy_name := sn; key_extraction := ke;
                bypass_function := bf; custom_error_message := cem; enabled := en |}) d
     = inr s) /\
  (forall n (ke : option (KeyExtractionStrategy Request))
       (bf : option (Request -> Exception + bool)) cem en,
     _determine_strategy self
       (Some {| strategy := None; strategy_name := Some n; key_extraction := ke;
                bypass_function := bf; custom_error_message := cem; enabled := en |}) d
     = match _strategy_map self !! n with
       | Some s => inr s
       | None => inl (RateLimitException [Lit "Unknown strategy name: "; StrName n] 500)
       end) /\
  (forall (ke : option (KeyExtractionStrategy Request))
       (bf : option (Request -> Exception + bool)) cem en,
     _determine_strategy self
       (Some {| strategy := None; strategy_name := None; key_extraction := ke;
                bypass_function := bf; custom_error_message := cem; enabled := en |}) d
     = match _strategy_map self !! d with
       | Some s => inr s
       | None => inl (RateLimitException [Lit "Default strategy not found: "; StrName d] 500)
       end) /\
  _determine_strategy (Request := Request) self None d
  = match _strategy_map self !! d with
    | Some s => inr s
    | None => inl (RateLimitException [Lit "Default strategy not found: "; StrName d] 500)
    end.
Proof. repeat split. Qed.

Lemma strategy_map_fold_None (l : list RateLimitStrategy.t)
    (m : gmap RateLimitStrategyName RateLimitStrategy.t) n :
  fold_left (fun m s => <[RateLimitStrategy.name s := s]> m) l m !! n = None
  <-> m !! n = None /\ ~ In n (map RateLimitStrategy.name l).
Proof.
  revert m. induction l as [|s l IH]; intros m; simpl.
  - tauto.
  - rewrite IH. destruct (decide (RateLimitStrategy.name s = n)) as [->|Hne].
    + rewrite lookup_insert_eq. split; [intros [? _]; discriminate|tauto].
    + rewrite lookup_insert_ne by done. tauto.
Qed.

Lemma strategy_map_fold_Some (l : list RateLimitStrategy.t)
    (m : gmap RateLimitStrategyName RateLimitStrategy.t) n st :
  fold_left (fun m s => <[RateLimitStrategy.name s := s]> m) l m !! n = Some st ->
  m !! n = Some st \/ (In st l /\ RateLimitStrategy.name st = n).
Proof.
  revert m. induction l as [|s l IH]; intros m; simpl; [auto|].
  intros Hl. apply IH in Hl as [Hl|[Hin Hn]]; [|by auto].
  destruct (decide (RateLimitStrategy.name s = n)) as [<-|Hne].
  - rewrite lookup_insert_eq in Hl. injection Hl as ->. auto.
  - rewrite lookup_insert_ne in Hl by done. auto.
Qed.

Lemma strategy_map_of_None l n :
  strategy_map_of l !! n = None <-> ~ In n (map RateLimitStrategy.name l).
Proof.
  unfold strategy_map_of. rewrite strategy_map_fold_None, lookup_empty. tauto.
Qed.

Lemma strategy_map_of_Some l n st :
  strategy_map_of l !! n = Some st -> In st l /\ RateLimitStrategy.name st = n.
Proof.
  unfold strategy_map_of. intros H0.
  apply strategy_map_fold_Some in H0 as [H0|H0]; [|done].
  by rewrite lookup_empty in H0.
Qed.

Lemma strategy_map_fold_right_find (l' : list RateLimitStrategy.t) n :
  fold_right (fun s (m : gmap RateLimitStrategyName RateLimitStrategy.t) =>
                <[RateLimitStrategy.name s := s]> m) ∅ l' !! n
  = find (fun s => bool_decide (RateLimitStrategy.name s = n)) l'.
Proof.
  induction l' as [|s l' IH]; simpl; [apply lookup_empty|].
  case_bool_decide as Hn.
  - subst n. apply lookup_insert_eq.
  - by rewrite lookup_insert_ne.
Qed.

Lemma strategy_map_of_last_named (l : list RateLimitStrategy.t) n :
  strategy_map_of l !! n = last_named n l.
Proof.
  unfold strategy_map_of, last_named.
  rewrite <- (fold_left_rev_right
                (fun s (m : gmap RateLimitStrategyName RateLimitStrategy.t) =>
                   <[RateLimitStrategy.name s := s]> m) l ∅).
  apply strategy_map_fold_right_find.
Qed.

(** C8.  [update_strategies] returns an engine whose map is built from the
    supplied list alone: under every name it holds the last strategy of the
    list that carries the name, and nothing else, so every strategy it
    holds is an element of the list, under its own name, and resolution by
    a strategy name answers from the list.  So for a name [n] that no
    strategy of the list carries, resolution by [n], as the strategy name
    of a configuration or as the default name, fails with the
    unknown-strategy error, whatever the map held before. *)
Theorem update_strategies_forgets_old_names self strategies w n :
  ~ In n (map RateLimitStrategy.name strategies) ->
  exists self' w',
    update_strategies self strategies w = (inr self', w') /\
    _strategy_map self' = strategy_map_of strategies /\
    (forall m, _strategy_map self' !! m = last_named m strategies) /\
    (forall m d (ke : option (KeyExtractionStrategy Request))
       (bf : option (Request -> Exception + bool)) cem en,
       _determine_strategy self'
         (Some {| strategy := None; strategy_name := Some m; key_extraction := ke;
                  bypass_function := bf; custom_error_message := cem; enabled := en |}) d
       = match last_named m strategies with
         | Some st => inr st
         | None => inl (RateLimitException [Lit "Unknown strategy name: "; StrName m] 500)
         end) /\
    (forall m st, _strategy_map self' !! m = Some st ->
                  In st strategies /\ RateLimitStrategy.name st = m) /\
    (forall d (ke : option (KeyExtractionStrategy Request))
       (bf : option (Request -> Exception + bool)) cem en,
       _determine_strategy (Request := Request) self'
         (Some {| strategy := None; strategy_name := Some n; key_extraction := ke;
                  bypass_function := bf; custom_error_message := cem; enabled := en |}) d
       = inl (RateLimitException [Lit "Unknown strategy name: "; StrName n] 500)) /\
    _determine_strategy (Request := Request) self' None n
    = inl (RateLimitException [Lit "Default strategy not found: "; StrName n] 500).
Proof.
  intros Hn. apply strategy_map_of_None in Hn.
  unfold update_strategies, bind, logger_log, ret. do 2 eexists.
  split; [reflexivity|]. simpl. split; [reflexivity|].
  split; [intros m; apply strategy_map_of_last_named|]. split.
  { intros. unfold _determine_strategy; simpl. by rewrite strategy_map_of_last_named. }
  split.
  - intros m st. apply strategy_map_of_Some.
  - split.
    + intros. unfold _determine_strategy; simpl. by rewrite Hn.
    + unfold _determine_strategy; simpl. by rewrite Hn.
Qed.

(** C10.  An engine constructed with no strategy list holds the three
    strategies SHORT (3 per 60 s), MEDIUM (20 per 600 s) and LONG (100 per
    3600 s) and no other; [check_rate_limit] and [get_current_usage] called
    with no default strategy name use MEDIUM, which on that engine, with no
    configuration, resolves to 20 per 600 s. *)
Theorem default_engine_strategies :
  default_strategies (RateLimitUseCase__init__ None)
  = [ RateLimitStrategy.mk SHORT 3 60; RateLimitStrategy.mk MEDIUM 20 600;
      RateLimitStrategy.mk LONG 100 3600 ] /\
  (forall n,
     _strategy_map (RateLimitUseCase__init__ None) !! n
     = match n with
       | SHORT => Some (RateLimitStrategy.mk SHORT 3 60)
       | MEDIUM => Some (RateLimitStrategy.mk MEDIUM 20 600)
       | LONG => Some (RateLimitStrategy.mk LONG 100 3600)
       | CUSTOM => None
       end) /\
  size (_strategy_map (RateLimitUseCase__init__ None)) = 3%nat /\
  (forall self request config,
     check_rate_limit_default_name self request config
     = check_rate_limit self request config MEDIUM) /\
  (forall self request config,
     get_current_usage_default_name self request config
     = get_current_usage self request config MEDIUM) /\
  _determine_strategy (Request := Request) (RateLimitUseCase__init__ None) None
    default_strategy_name_default
  = inr (RateLimitStrategy.mk MEDIUM 20 600).
Proof.
  split; [reflexivity|]. split; [by intros []|]. repeat split.
Qed.
End EngineFacts.

(** ** The middleware *)

Section MiddlewareFacts.
Context {Request Store Endpoint : Type}.
Context `{!IRateLimitRepository Store} `{!KeyExtractionUseCase Request} `{!ToHeaders}.
Context `{!RequestScope Request Endpoint} `{!Decorator Request Endpoint}.

Implicit Types (self : RateLimitMiddleware.t) (request : Request) (w : World Store).
Implicit Types (call_next : Request -> M Store Response.t).

Lemma prefix_append (a b : string) : String.prefix a (a +:+ b) = true.
Proof.
  induction a as [|c a IH]; simpl; [by destruct b|].
  destruct (Ascii.ascii_dec c c); [exact IH|congruence].
Qed.

Lemma prefix_split (a p : string) :
  String.prefix a p = true -> exists b, p = a +:+ b.
Proof.
  revert p. induction a as [|c a IH]; intros p.
  - intros _. by exists p.
  - destruct p as [|c' p]; simpl; [discriminate|].
    destruct (Ascii.ascii_dec c c') as [<-|]; [|discriminate].
    intros Hp. destruct (IH p Hp) as [b ->]. by exists b.
Qed.

Lemma path_excluded_loop_true (l : list string) (p : string) :
  path_excluded_loop l p = true <-> exists ex, In ex l /\ String.prefix ex p = true.
Proof.
  induction l as [|a l IH]; simpl.
  - split; [discriminate|]. by intros (? & [] & _).
  - destruct (String.prefix a p) eqn:E.
    + split; [|done]. intros _. exists a. auto.
    + rewrite IH. split.
      * intros (ex & Hin & Hp). exists ex. auto.
      * intros (ex & [<-|Hin] & Hp); [congruence|]. exists ex. auto.
Qed.

(** What [dispatch] does with a request that is neither excluded nor
    switched off, for each outcome of the check. *)
Lemma dispatch_checked self request call_next w :
  RateLimitMiddleware.enabled self = true ->
  _is_path_excluded self (url_path request) = false ->
  route_disabled request = false ->
  dispatch self request call_next w
  = match check_rate_limit (RateLimitMiddleware.rate_limit_use_case self) request
            (route_config_of request) (RateLimitMiddleware.default_strategy_name self) w with
    | (inr result, w1) =>
        match call_next request w1 with
        | (inr response, w2) => (inr (_add_rate_limit_headers response result), w2)
        | (inl (RateLimitHTTPException status_code detail headers), w2) =>
            (inr (JSONResponse status_code detail headers), w2)
        | (inl e, w2) => call_next request (with_printed w2 (middleware_error_line e))
        end
    | (inl (RateLimitHTTPException status_code detail headers), w1) =>
        (inr (JSONResponse status_code detail headers), w1)
    | (inl e, w1) => call_next request (with_printed w1 (middleware_error_line e))
    end.
Proof.
  intros Hen Hex Hdis. unfold dispatch. rewrite Hen, Hex.
  change (negb true) with false. cbv iota.
  unfold route_disabled, route_config_of in *.
  unfold try_except, try_except_RateLimitHTTPException, bind. cbv zeta. rewrite Hdis.
  unfold print, ret, with_printed, middleware_error_line.
  destruct (check_rate_limit _ _ _ _ w) as [[e|result] w1].
  - destruct e; reflexivity.
  - destruct (call_next request w1) as [[e|response] w2]; [|reflexivity].
    destruct e; reflexivity.
Qed.

Lemma _is_path_excluded_prefix self (p : string) :
  _is_path_excluded self p = true
  <-> exists ex suffix, In ex (RateLimitMiddleware.excluded_paths self) /\ p = ex +:+ suffix.
Proof.
  unfold _is_path_excluded. rewrite path_excluded_loop_true. split.
  - intros (ex & Hin & Hp). apply prefix_split in Hp as [suffix ->]. by exists ex, suffix.
  - intros (ex & suffix & Hin & ->). exists ex. split; [done|apply prefix_append].
Qed.

(** C9.  Exclusion is by prefix: a path is excluded exactly when it is one
    of the excluded paths followed by some suffix, the empty one or not.  A
    request whose path starts with an excluded path is handed to the next
    handler as it is: [dispatch] is then the call of the next handler, so
    the middleware runs no check and issues no store call. *)
Theorem excluded_prefix_is_forwarded self request call_next ex suffix :
  In ex (RateLimitMiddleware.excluded_paths self) ->
  url_path request = ex +:+ suffix ->
  (forall p, _is_path_excluded self p = true
             <-> exists ex' suffix',
                   In ex' (RateLimitMiddleware.excluded_paths self) /\ p = ex' +:+ suffix') /\
  _is_path_excluded self (url_path request) = true /\
  dispatch self request call_next = call_next request.
Proof.
  intros Hin Hpath.
  assert (Hex : _is_path_excluded self (url_path request) = true)
    by (apply _is_path_excluded_prefix; by exists ex, suffix).
  split; [apply _is_path_excluded_prefix|]. split; [done|].
  unfold dispatch. rewrite Hex.
  by destruct (RateLimitMiddleware.enabled self).
Qed.

(** C4, as the code has it.  For a request that is checked, an exceeded
    signal becomes a JSON response with the signal's status, detail and
    headers, and the next handler is not called; when the store count, one
    that is not negative, exceeds the limit that response has status 429
    and carries
    [retry_after = ttl] and the limit.  Any other exception of the check is
    printed and the request is handed to the next handler: the response is
    the handler's. *)
Theorem dispatch_rejects_exceeded_forwards_errors self request call_next w :
  RateLimitMiddleware.enabled self = true ->
  _is_path_excluded self (url_path request) = false ->
  route_disabled request = false ->
  let use_case := RateLimitMiddleware.rate_limit_use_case self in
  let d := RateLimitMiddleware.default_strategy_name self in
  let config := route_config_of request in
  let checked := check_rate_limit use_case request config d w in
  (forall status_code detail headers,
     fst checked = inl (RateLimitHTTPException status_code detail headers) ->
     dispatch self request call_next w
     = (inr (JSONResponse status_code detail headers), snd checked)) /\
  (forall s k c st,
     _determine_strategy use_case config d = inr s ->
     extract_key request (_determine_key_strategy config) = inr k ->
     bypasses request config = false ->
     increment_counter (repository w) k (RateLimitStrategy.ttl s) = (inr c, st) ->
     (0 <= c)%Z ->
     (RateLimitStrategy.limit s < c)%Z ->
     exists detail headers,
       fst (dispatch self request call_next w) = inr (JSONResponse 429 detail headers) /\
       Detail.retry_after detail = Some (RateLimitStrategy.ttl s) /\
       Detail.limit detail = RateLimitStrategy.limit s) /\
  (forall e,
     fst checked = inl e ->
     is_RateLimitHTTPException e = false ->
     dispatch self request call_next w
     = call_next request (with_printed (snd checked) (middleware_error_line e))).
Proof.
  intros Hen Hex Hdis use_case d config checked.
  pose proof (dispatch_checked self request call_next w Hen Hex Hdis) as Hd.
  fold use_case d config checked in Hd.
  split; [|split].
  - intros status_code detail headers Hc. rewrite Hd.
    destruct checked as [o w1]; simpl in Hc; subst o. reflexivity.
  - intros s k c st Hs Hk Hb Hinc Hpos Hlt.
    pose proof (check_rate_limit_reaches_store use_case request config d w s k Hs Hk Hb)
      as Hck.
    rewrite Hinc in Hck. cbv zeta in Hck.
    assert (Hvalid : (c <? 0)%Z = false) by (apply Z.ltb_ge; lia).
    assert (Hgt : (c <=? RateLimitStrategy.limit s)%Z = false) by (apply Z.leb_gt; lia).
    rewrite Hvalid, Hgt in Hck. rewrite Hd. subst checked. rewrite Hck.
    unfold exceeded_signal. do 2 eexists. split; [reflexivity|].
    unfold decided_result; simpl. by rewrite Hgt.
  - intros e Hc He. rewrite Hd.
    destruct checked as [o w1]; simpl in Hc; subst o.
    destruct e; [discriminate| |]; reflexivity.
Qed.
End MiddlewareFacts.

(** ** The properties on the concrete collaborators *)

Lemma memory_store_contract : IncrementContract memory_count.
Proof.
  split; intros s key ttl; simpl; [reflexivity|].
  unfold memory_count at 1.
  by rewrite (lookup_insert_eq (M := gmap string) s key).
Qed.

(** With SHORT (3 per 60 s) on the memory store and a fresh key, the fourth
    call raises the exceeded signal with [retry_after = 60]. *)
Lemma check_rate_limit_inclusive_limit_witness :
  _determine_strategy default_engine no_config SHORT
  = inr short_strategy /\
  extract_key sample_request (_determine_key_strategy no_config) = inr sample_key /\
  bypasses sample_request no_config = false /\
  IncrementContract memory_count /\
  memory_count ∅ sample_key = 0%Z /\
  (forall i, (i < 3)%nat ->
     exists result,
       fst (check_repeatedly 4 default_engine sample_request no_config SHORT
              (fresh_world (∅ : MemoryStore))) !! i = Some (inr result) /\
       RateLimitResult.allowed result = true /\
       RateLimitResult.current_count result = (Z.of_nat i + 1)%Z) /\
  (exists result,
     fst (check_repeatedly 4 default_engine sample_request no_config SHORT
            (fresh_world (∅ : MemoryStore))) !! 3%nat
     = Some (inl (RateLimitHTTPException 429
                    (Detail.mk (_get_error_message no_config result) (Some 60%Z) 3 60)
                    (to_headers result))) /\
     RateLimitResult.allowed result = false /\
     RateLimitResult.retry_after result = Some 60%Z).
Proof.
  assert (Hs : _determine_strategy default_engine no_config SHORT = inr short_strategy)
    by reflexivity.
  assert (Hk : extract_key sample_request (_determine_key_strategy no_config)
               = inr sample_key) by reflexivity.
  assert (Hb : bypasses sample_request no_config = false) by reflexivity.
  assert (Hfresh : memory_count ∅ sample_key = 0%Z) by reflexivity.
  split; [exact Hs|]. split; [exact Hk|]. split; [exact Hb|].
  split; [exact memory_store_contract|]. split; [exact Hfresh|].
  destruct (check_rate_limit_inclusive_limit (Store := MemoryStore)
              default_engine sample_request no_config SHORT short_strategy sample_key
              Hs Hk Hb) as [_ Hseq].
  apply (Hseq memory_count (fresh_world (∅ : MemoryStore)) 3%nat
           memory_store_contract Hfresh). reflexivity.
Defined.

(** At a count equal to the limit of SHORT, the usage reports
    [allowed = false] and the check returns [allowed = true]. *)
Lemma usage_exclusive_check_inclusive_witness :
  (0 <= 3)%Z /\
  get_current_count (repository (fresh_world ({[sample_key := 3%Z]} : MemoryStore))) sample_key
  = (inr 3%Z, {[sample_key := 3%Z]}) /\
  increment_counter (repository (fresh_world ({[sample_key := 2%Z]} : MemoryStore)))
    sample_key 60 = (inr 3%Z, {[sample_key := 3%Z]}) /\
  (exists usage,
     fst (get_current_usage default_engine sample_request no_config SHORT
            (fresh_world ({[sample_key := 3%Z]} : MemoryStore))) = inr usage /\
     RateLimitResult.allowed usage = false) /\
  (exists result,
     fst (check_rate_limit default_engine sample_request no_config SHORT
            (fresh_world ({[sample_key := 2%Z]} : MemoryStore))) = inr result /\
     RateLimitResult.allowed result = true).
Proof.
  assert (Hs : _determine_strategy default_engine no_config SHORT = inr short_strategy)
    by reflexivity.
  assert (Hk : extract_key sample_request (_determine_key_strategy no_config)
               = inr sample_key) by reflexivity.
  assert (Hb : bypasses sample_request no_config = false) by reflexivity.
  assert (Hpos : (0 <= 3)%Z) by lia.
  assert (Hget : get_current_count
                   (repository (fresh_world ({[sample_key := 3%Z]} : MemoryStore)))
                   sample_key = (inr 3%Z, {[sample_key := 3%Z]})) by reflexivity.
  assert (Hinc : increment_counter
                   (repository (fresh_world ({[sample_key := 2%Z]} : MemoryStore)))
                   sample_key (RateLimitStrategy.ttl short_strategy)
                 = (inr 3%Z, {[sample_key := 3%Z]})) by reflexivity.
  split; [exact Hpos|]. split; [exact Hget|]. split; [exact Hinc|].
  destruct (usage_exclusive_check_inclusive (Store := MemoryStore)
              default_engine sample_request no_config SHORT short_strategy sample_key
              3%Z Hs Hk Hpos) as [Husage Hcheck].
  split.
  - destruct (Husage _ _ Hget) as (usage & Hu & _ & _ & Hat).
    exists usage. split; [exact Hu|]. apply Hat. reflexivity.
  - destruct (Hcheck _ _ Hb Hinc) as (result & _ & _ & _ & Hat).
    exists result. apply Hat. reflexivity.
Defined.

(** With the unreachable store, the caller of [check_rate_limit] and of
    [get_current_usage] receives the engine's own exception, not the
    store's [ConnectionError]. *)
Lemma store_failure_is_not_propagated_unmodified :
  fst (increment_counter (repository (fresh_world unreachable)) sample_key 600)
  = inl ConnectionError /\
  fst (get_current_count (repository (fresh_world unreachable)) sample_key)
  = inl ConnectionError /\
  fst (check_rate_limit default_engine sample_request no_config MEDIUM
         (fresh_world unreachable))
  = inl (RateLimitException [Lit "Rate limit check failed"] 500) /\
  fst (check_rate_limit default_engine sample_request no_config MEDIUM
         (fresh_world unreachable))
  <> inl ConnectionError /\
  fst (get_current_usage default_engine sample_request no_config MEDIUM
         (fresh_world unreachable))
  = inl (RateLimitException [Lit "Usage check failed"] 500) /\
  fst (get_current_usage default_engine sample_request no_config MEDIUM
         (fresh_world unreachable))
  <> inl ConnectionError.
Proof. repeat split; try reflexivity; discriminate. Qed.

Lemma collaborator_failures_are_replaced_witness :
  _determine_strategy default_engine no_config MEDIUM = inr medium_strategy /\
  extract_key sample_request (_determine_key_strategy no_config) = inr sample_key /\
  bypasses sample_request no_config = false /\
  increment_counter (repository (fresh_world unreachable)) sample_key 600
  = (inl ConnectionError, unreachable) /\
  check_rate_limit default_engine sample_request no_config MEDIUM (fresh_world unreachable)
  = (inl check_failed,
     with_logged
       (after_increment
          (with_logged (fresh_world unreachable) (bypass_warnings sample_request no_config))
          unreachable sample_key 600)
       [check_failed_record ConnectionError]).
Proof.
  assert (Hs : _determine_strategy default_engine no_config MEDIUM = inr medium_strategy)
    by reflexivity.
  assert (Hk : extract_key sample_request (_determine_key_strategy no_config)
               = inr sample_key) by reflexivity.
  assert (Hb : bypasses sample_request no_config = false) by reflexivity.
  assert (Hinc : increment_counter (repository (fresh_world unreachable)) sample_key
                   (RateLimitStrategy.ttl medium_strategy)
                 = (inl ConnectionError, unreachable)) by reflexivity.
  split; [exact Hs|]. split; [exact Hk|]. split; [exact Hb|]. split; [exact Hinc|].
  destruct (collaborator_failures_are_replaced (Store := UnreachableStore)
              default_engine sample_request no_config MEDIUM (fresh_world unreachable)
              medium_strategy Hs) as [_ Hstore].
  destruct (Hstore sample_key ConnectionError unreachable Hk) as [_ Hcheck].
  exact (Hcheck Hb Hinc).
Defined.

(** A bypass function that raises: the call is the call with no bypass
    function after the warning, and one increment is issued. *)
Lemma bypass_failure_falls_through_witness :
  bypass_function (admin_config bypass_broken) = Some bypass_broken /\
  bypass_broken sample_request = inl KeyError /\
  check_rate_limit default_engine sample_request (Some (admin_config bypass_broken)) MEDIUM
    (fresh_world (∅ : MemoryStore))
  = check_rate_limit default_engine sample_request
      (Some (without_bypass (admin_config bypass_broken))) MEDIUM
      (with_logged (fresh_world (∅ : MemoryStore)) [bypass_warning KeyError]) /\
  journal (snd (check_rate_limit default_engine sample_request
                  (Some (admin_config bypass_broken)) MEDIUM
                  (fresh_world (∅ : MemoryStore))))
  = [IncrementCounter sample_key 60].
Proof.
  assert (Hf : bypass_function (admin_config bypass_broken) = Some bypass_broken)
    by reflexivity.
  assert (He : bypass_broken sample_request = inl KeyError) by reflexivity.
  split; [exact Hf|]. split; [exact He|].
  destruct (bypass_failure_falls_through (Store := MemoryStore)
              default_engine sample_request (admin_config bypass_broken) bypass_broken
              KeyError MEDIUM (fresh_world (∅ : MemoryStore)) Hf He)
    as (_ & _ & _ & _ & Hreached).
  apply (Hreached custom_strategy sample_key); reflexivity.
Defined.

(** An administrator on [/api/admin], with a counter already over the
    limit: allowed with count 0, and the world is as before. *)
Lemma bypass_true_skips_store_witness :
  bypass_function (admin_config bypass_for_admins) = Some bypass_for_admins /\
  bypass_for_admins admin_request = inr true /\
  check_rate_limit default_engine admin_request (Some (admin_config bypass_for_admins))
    MEDIUM (fresh_world ({[sample_key := 7%Z]} : MemoryStore))
  = (inr (RateLimitResult.mk true sample_key 0 5 60 None CUSTOM),
     fresh_world ({[sample_key := 7%Z]} : MemoryStore)).
Proof.
  assert (Hf : bypass_function (admin_config bypass_for_admins) = Some bypass_for_admins)
    by reflexivity.
  assert (Ht : bypass_for_admins admin_request = inr true) by reflexivity.
  split; [exact Hf|]. split; [exact Ht|].
  apply (bypass_true_skips_store (Store := MemoryStore)
           default_engine admin_request (admin_config bypass_for_admins)
           bypass_for_admins MEDIUM _ custom_strategy sample_key Hf Ht); reflexivity.
Defined.

(** After an update with a list that names SHORT twice and LONG, SHORT
    resolves to the later of the two, and the name MEDIUM, which the
    default engine held, no longer resolves. *)
Lemma update_strategies_forgets_old_names_witness :
  ~ In MEDIUM (map RateLimitStrategy.name short_twice) /\
  exists self' w',
    update_strategies default_engine short_twice (fresh_world (∅ : MemoryStore))
    = (inr self', w') /\
    _strategy_map self' !! SHORT = Some (RateLimitStrategy.mk SHORT 5 30) /\
    _strategy_map self' !! LONG = Some (RateLimitStrategy.mk LONG 100 3600) /\
    _determine_strategy self' no_config MEDIUM
    = inl (RateLimitException [Lit "Default strategy not found: "; StrName MEDIUM] 500).
Proof.
  assert (Hn : ~ In MEDIUM (map RateLimitStrategy.name short_twice))
    by (simpl; intuition discriminate).
  split; [exact Hn|].
  destruct (update_strategies_forgets_old_names (Request := SampleRequest)
              (Store := MemoryStore) default_engine short_twice
              (fresh_world (∅ : MemoryStore)) MEDIUM Hn)
    as (self' & w' & Hup & _ & Hlast & _ & _ & _ & Hdef).
  exists self', w'. split; [exact Hup|].
  split; [exact (Hlast SHORT)|]. split; [exact (Hlast LONG)|exact Hdef].
Defined.

(** Excluding [/health] also exempts [/healthcheck]. *)
Lemma excluded_prefix_is_forwarded_witness :
  In "/health" (RateLimitMiddleware.excluded_paths sample_middleware) /\
  url_path healthcheck_request = "/health" +:+ "check" /\
  _is_path_excluded sample_middleware (url_path healthcheck_request) = true /\
  dispatch (Store := MemoryStore) sample_middleware healthcheck_request ok_handler
  = ok_handler healthcheck_request.
Proof.
  assert (Hin : In "/health" (RateLimitMiddleware.excluded_paths sample_middleware))
    by (simpl; tauto).
  assert (Hp : url_path healthcheck_request = "/health" +:+ "check") by reflexivity.
  split; [exact Hin|]. split; [exact Hp|].
  destruct (excluded_prefix_is_forwarded (Store := MemoryStore) sample_middleware
              healthcheck_request ok_handler "/health" "check" Hin Hp) as [_ Hfwd].
  exact Hfwd.
Defined.

(** With the unreachable store the check fails, and the middleware answers
    with the handler's 200: the failure is turned into letting the request
    through. *)
Lemma check_error_lets_the_request_through :
  fst (check_rate_limit default_engine sample_request (route_config_of sample_request)
         MEDIUM (fresh_world unreachable))
  = inl (RateLimitException [Lit "Rate limit check failed"] 500) /\
  fst (dispatch sample_middleware sample_request ok_handler (fresh_world unreachable))
  = inr (Response.mk 200 (Body "ok") ∅).
Proof. split; reflexivity. Qed.

Lemma dispatch_rejects_exceeded_forwards_errors_witness :
  RateLimitMiddleware.enabled sample_middleware = true /\
  _is_path_excluded sample_middleware (url_path sample_request) = false /\
  route_disabled sample_request = false /\
  fst (check_rate_limit default_engine sample_request (route_config_of sample_request)
         MEDIUM (fresh_world unreachable)) = inl check_failed /\
  is_RateLimitHTTPException check_failed = false /\
  dispatch sample_middleware sample_request ok_handler (fresh_world unreachable)
  = ok_handler sample_request
      (with_printed
         (snd (check_rate_limit default_engine sample_request
                 (route_config_of sample_request) MEDIUM (fresh_world unreachable)))
         (middleware_error_line check_failed)).
Proof.
  assert (Hen : RateLimitMiddleware.enabled sample_middleware = true) by reflexivity.
  assert (Hex : _is_path_excluded sample_middleware (url_path sample_request) = false)
    by reflexivity.
  assert (Hdis : route_disabled sample_request = false) by reflexivity.
  assert (Hc : fst (check_rate_limit default_engine sample_request
                      (route_config_of sample_request) MEDIUM (fresh_world unreachable))
               = inl check_failed) by reflexivity.
  assert (He : is_RateLimitHTTPException check_failed = false) by reflexivity.
  split; [exact Hen|]. split; [exact Hex|]. split; [exact Hdis|].
  split; [exact Hc|]. split; [exact He|].
  destruct (dispatch_rejects_exceeded_forwards_errors (Store := UnreachableStore)
              sample_middleware sample_request ok_handler (fresh_world unreachable)
              Hen Hex Hdis) as (_ & _ & Herr).
  exact (Herr check_failed Hc He).
Defined.

(** * Further properties of the engine *)

Section MoreEngineFacts.
Context {Request Store : Type}.
Context `{!IRateLimitRepository Store} `{!KeyExtractionUseCase Request} `{!ToHeaders}.

Implicit Types (self : RateLimitUseCase) (request : Request).
Implicit Types (config : option (RateLimitConfig Request)) (w : World Store).

Lemma is_RateLimitHTTPException_true e :
  is_RateLimitHTTPException e = true ->
  exists status_code detail headers, e = RateLimitHTTPException status_code detail headers.
Proof. destruct e; try discriminate. intros _. eauto. Qed.

Lemma get_current_usage_resolution_fails self request config d w e :
  _determine_strategy self config d = inl e ->
  get_current_usage self request config d w
  = (inl usage_failed, with_logged w [usage_failed_record e]).
Proof.
  intros Hs. unfold get_current_usage, try_except, bind, lift. by rewrite Hs.
Qed.

(** The three ways a call of [check_rate_limit] can go. *)
Lemma check_rate_limit_cases self request config d w :
  (exists e, (_determine_strategy self config d = inl e \/
              exists s, _determine_strategy self config d = inr s /\
                        extract_key request (_determine_key_strategy config) = inl e) /\
     check_rate_limit self request config d w
     = if is_RateLimitHTTPException e then (inl e, w)
       else (inl check_failed, with_logged w [check_failed_record e])) \/
  (exists s k,
     _determine_strategy self config d = inr s /\
     extract_key request (_determine_key_strategy config) = inr k /\
     bypasses request config = true /\
     check_rate_limit self request config d w
     = (inr (RateLimitResult.mk true k 0 (RateLimitStrategy.limit s)
               (RateLimitStrategy.ttl s) None (RateLimitStrategy.name s)),
        with_logged w (bypass_warnings request config))) \/
  (exists s k,
     _determine_strategy self config d = inr s /\
     extract_key request (_determine_key_strategy config) = inr k /\
     bypasses request config = false /\
     check_rate_limit self request config d w
     = let '(r, st) := increment_counter (repository w) k (RateLimitStrategy.ttl s) in
       let w' := after_increment (with_logged w (bypass_warnings request config)) st k
                   (RateLimitStrategy.ttl s) in
       match r with
       | inr c =>
           if (c <? 0)%Z
           then (inl check_failed, with_logged w' [check_failed_record invalid_count])
           else if (c <=? RateLimitStrategy.limit s)%Z
                then (inr (decided_result s k c), w')
                else (inl (exceeded_signal config s (decided_result s k c)), w')
       | inl e =>
           if is_RateLimitHTTPException e then (inl e, w')
           else (inl check_failed, with_logged w' [check_failed_record e])
       end).
Proof.
  destruct (_determine_strategy self config d) as [e|s] eqn:Hs.
  { left. exists e. split; [by left|].
    by apply check_rate_limit_resolution_fails. }
  destruct (extract_key request (_determine_key_strategy config)) as [e|k] eqn:Hk.
  { left. exists e. split; [right; by exists s|].
    by apply check_rate_limit_extraction_fails with s. }
  destruct (bypasses request config) eqn:Hb.
  - right; left. exists s, k. repeat split; try done.
    by rewrite (check_rate_limit_steps _ _ _ _ _ s k Hs Hk), Hb.
  - right; right. exists s, k. repeat split; try done.
    by apply check_rate_limit_reaches_store.
Qed.

(** The ways a call of [get_current_usage] can go. *)
Lemma get_current_usage_cases self request config d w :
  (exists e, get_current_usage self request config d w
             = (inl usage_failed, with_logged w [usage_failed_record e])) \/
  (exists s k,
     _determine_strategy self config d = inr s /\
     extract_key request (_determine_key_strategy config) = inr k /\
     get_current_usage self request config d w
     = let '(r, st) := get_current_count (repository w) k in
       let w' := after_read w st k in
       match r with
       | inr c =>
           if (c <? 0)%Z
           then (inl usage_failed, with_logged w' [usage_failed_record invalid_count])
           else
             (inr (RateLimitResult.mk (c <? RateLimitStrategy.limit s)%Z k c
                     (RateLimitStrategy.limit s) (RateLimitStrategy.ttl s)
                     (if (c <? RateLimitStrategy.limit s)%Z then None
                      else Some (RateLimitStrategy.ttl s))
                     (RateLimitStrategy.name s)), w')
       | inl e => (inl usage_failed, with_logged w' [usage_failed_record e])
       end).
Proof.
  destruct (_determine_strategy self config d) as [e|s] eqn:Hs.
  { left. exists e. by apply get_current_usage_resolution_fails. }
  destruct (extract_key request (_determine_key_strategy config)) as [e|k] eqn:Hk.
  { left. exists e. by apply get_current_usage_extraction_fails with s. }
  right. exists s, k. repeat split; try done. by apply get_current_usage_spec.
Qed.

(** X1.  [get_current_usage] never increments: whatever the collaborators
    do, it issues no store call at all, or the single read
    [get_current_count] of the extracted key, and it prints nothing. *)
Theorem get_current_usage_reads_only self request config d w :
  let after := snd (get_current_usage self request config d w) in
  stdout after = stdout w /\
  (journal after = journal w \/
   exists k, extract_key request (_determine_key_strategy config) = inr k /\
             journal after = (journal w ++ [GetCurrentCount k])%list).
Proof.
  destruct (get_current_usage_cases self request config d w)
    as [[e ->]|(s & k & Hs & Hk & ->)]; cbv zeta.
  - split; [reflexivity|by left].
  - destruct (get_current_count (repository w) k) as [[e|c] st];
      [|destruct (c <? 0)%Z]; (split; [reflexivity|right; by exists k]).
Qed.

(** X2.  A call of [check_rate_limit] whose strategy does not resolve or
    whose key extraction fails raises, and does so before the store is
    reached: the store keeps its state and no call is issued to it, so the
    request is not counted. *)
Theorem check_rate_limit_fails_before_counting self request config d w :
  (forall e, _determine_strategy self config d = inl e ->
     let r := check_rate_limit self request config d w in
     (exists e', fst r = inl e') /\
     repository (snd r) = repository w /\ journal (snd r) = journal w) /\
  (forall e, extract_key request (_determine_key_strategy config) = inl e ->
     let r := check_rate_limit self request config d w in
     (exists e', fst r = inl e') /\
     repository (snd r) = repository w /\ journal (snd r) = journal w).
Proof.
  split; intros e He r; subst r.
  - rewrite (check_rate_limit_resolution_fails _ _ _ _ _ e He).
    destruct (is_RateLimitHTTPException e); simpl; eauto.
  - destruct (_determine_strategy self config d) as [e1|s] eqn:Hs.
    + rewrite (check_rate_limit_resolution_fails _ _ _ _ _ e1 Hs).
      destruct (is_RateLimitHTTPException e1); simpl; eauto.
    + rewrite (check_rate_limit_extraction_fails _ _ _ _ _ s e Hs He).
      destruct (is_RateLimitHTTPException e); simpl; eauto.
Qed.

(** X3.  Whatever the collaborators do, a call of [check_rate_limit]
    returns a result, raises an exception of class
    [RateLimitHTTPException], or raises the one
    [RateLimitException("Rate limit check failed", 500)]: no other
    exception leaves it. *)
Theorem check_rate_limit_raises_only self request config d w :
  (exists result, fst (check_rate_limit self request config d w) = inr result) \/
  (exists status_code detail headers,
     fst (check_rate_limit self request config d w)
     = inl (RateLimitHTTPException status_code detail headers)) \/
  fst (check_rate_limit self request config d w)
  = inl (RateLimitException [Lit "Rate limit check failed"] 500).
Proof.
  destruct (check_rate_limit_cases self request config d w)
    as [(e & _ & ->)|[(s & k & _ & _ & _ & ->)|(s & k & _ & _ & _ & ->)]].
  - destruct (is_RateLimitHTTPException e) eqn:E; [|by right; right].
    apply is_RateLimitHTTPException_true in E as (sc & det & hd & ->).
    right; left. by exists sc, det, hd.
  - left. eauto.
  - destruct (increment_counter _ _ _) as [[e|c] st]; cbv zeta.
    + destruct (is_RateLimitHTTPException e) eqn:E; [|by right; right].
      apply is_RateLimitHTTPException_true in E as (sc & det & hd & ->).
      right; left. by exists sc, det, hd.
    + destruct (c <? 0)%Z; [by right; right|].
      destruct (c <=? RateLimitStrategy.limit s)%Z; [left; eauto|].
      right; left. unfold exceeded_signal. eauto.
Qed.

(** X4.  Whatever the collaborators do, a call of [get_current_usage]
    returns a result or raises the one
    [RateLimitException("Usage check failed", 500)]; an exception of class
    [RateLimitHTTPException] raised by a collaborator is replaced too. *)
Theorem get_current_usage_raises_only self request config d w :
  (exists result, fst (get_current_usage self request config d w) = inr result) \/
  fst (get_current_usage self request config d w)
  = inl (RateLimitException [Lit "Usage check failed"] 500).
Proof.
  destruct (get_current_usage_cases self request config d w)
    as [[e ->]|(s & k & _ & _ & ->)]; [by right|].
  destruct (get_current_count (repository w) k) as [[e|c] st]; cbv zeta;
    [by right|]. destruct (c <? 0)%Z; [by right|left; eauto].
Qed.

(** The outcome of a call and the store it leaves depend on the world
    through the store alone. *)
Lemma check_rate_limit_repository_only self request config d w w' :
  repository w = repository w' ->
  fst (check_rate_limit self request config d w)
  = fst (check_rate_limit self request config d w') /\
  repository (snd (check_rate_limit self request config d w))
  = repository (snd (check_rate_limit self request config d w')).
Proof.
  intros Hr.
  destruct (_determine_strategy self config d) as [e|s] eqn:Hs.
  { rewrite !(check_rate_limit_resolution_fails _ _ _ _ _ e Hs).
    destruct (is_RateLimitHTTPException e); by split. }
  destruct (extract_key request (_determine_key_strategy config)) as [e|k] eqn:Hk.
  { rewrite !(check_rate_limit_extraction_fails _ _ _ _ _ s e Hs Hk).
    destruct (is_RateLimitHTTPException e); by split. }
  rewrite !(check_rate_limit_steps _ _ _ _ _ s k Hs Hk).
  destruct (bypasses request config); [by split|].
  rewrite !perform_check_spec. simpl repository. rewrite Hr.
  destruct (increment_counter (repository w') k (RateLimitStrategy.ttl s)) as [[e|c] st];
    cbv beta iota zeta.
  - destruct (is_RateLimitHTTPException e); by split.
  - destruct (c <? 0)%Z; [by split|].
    destruct (c <=? RateLimitStrategy.limit s)%Z; by split.
Qed.

Lemma get_current_usage_repository_only self request config d w w' :
  repository w = repository w' ->
  fst (get_current_usage self request config d w)
  = fst (get_current_usage self request config d w').
Proof.
  intros Hr.
  destruct (_determine_strategy self config d) as [e|s] eqn:Hs.
  { by rewrite !(get_current_usage_resolution_fails _ _ _ _ _ e Hs). }
  destruct (extract_key request (_determine_key_strategy config)) as [e|k] eqn:Hk.
  { by rewrite !(get_current_usage_extraction_fails _ _ _ _ _ s e Hs Hk). }
  rewrite !(get_current_usage_spec _ _ _ _ _ s k Hs Hk), Hr.
  destruct (get_current_count (repository w') k) as [[e|c] st]; [done|].
  cbv zeta. by destruct (c <? 0)%Z.
Qed.

(** X5.  A result that [check_rate_limit] returns has [allowed = true] and
    no [retry_after]; its key is the extracted key, and its limit, ttl and
    strategy name are those of the resolved strategy.  After a bypass its
    count is 0 and the store was not touched; otherwise its count is at
    most the limit.  A result with [allowed = false] is never returned. *)
Theorem check_rate_limit_returns_only_allowed self request config d w result :
  fst (check_rate_limit self request config d w) = inr result ->
  RateLimitResult.allowed result = true /\
  RateLimitResult.retry_after result = None /\
  exists s k,
    _determine_strategy self config d = inr s /\
    extract_key request (_determine_key_strategy config) = inr k /\
    RateLimitResult.key result = k /\
    RateLimitResult.limit result = RateLimitStrategy.limit s /\
    RateLimitResult.ttl result = RateLimitStrategy.ttl s /\
    RateLimitResult.strategy_name result = RateLimitStrategy.name s /\
    if bypasses request config
    then RateLimitResult.current_count result = 0%Z /\
         repository (snd (check_rate_limit self request config d w)) = repository w /\
         journal (snd (check_rate_limit self request config d w)) = journal w
    else (RateLimitResult.current_count result <= RateLimitStrategy.limit s)%Z.
Proof.
  destruct (check_rate_limit_cases self request config d w)
    as [(e & _ & ->)|[(s & k & Hs & Hk & Hb & ->)|(s & k & Hs & Hk & Hb & ->)]].
  - destruct (is_RateLimitHTTPException e); discriminate.
  - simpl. intros [= <-]. simpl. repeat split. exists s, k. rewrite Hb. by repeat split.
  - destruct (increment_counter _ _ _) as [[e|c] st]; cbv zeta.
    + destruct (is_RateLimitHTTPException e); discriminate.
    + destruct (c <? 0)%Z; [discriminate|].
      destruct (c <=? RateLimitStrategy.limit s)%Z eqn:E; [|discriminate].
      simpl. intros [= <-]. unfold decided_result; simpl. rewrite E.
      repeat split. exists s, k. rewrite Hb. repeat split; try done.
      by apply Z.leb_le.
Qed.

(** X6.  A result that [get_current_usage] returns is consistent in
    itself: [allowed] holds exactly when its count is below its limit, and
    [retry_after] is absent when it is allowed and is its ttl when it is
    not. *)
Theorem get_current_usage_result_consistent self request config d w result :
  fst (get_current_usage self request config d w) = inr result ->
  (RateLimitResult.allowed result = true
   <-> (RateLimitResult.current_count result < RateLimitResult.limit result)%Z) /\
  RateLimitResult.retry_after result
  = if RateLimitResult.allowed result then None else Some (RateLimitResult.ttl result).
Proof.
  destruct (get_current_usage_cases self request config d w)
    as [[e ->]|(s & k & _ & _ & ->)]; [discriminate|].
  destruct (get_current_count (repository w) k) as [[e|c] st]; cbv zeta; [discriminate|].
  destruct (c <? 0)%Z; [discriminate|].
  simpl. intros [= <-]. simpl. split; [apply Z.ltb_lt|reflexivity].
Qed.

Lemma check_rate_limit_billed count_of self request config d w s k :
  IncrementContract count_of ->
  _determine_strategy self config d = inr s ->
  extract_key request (_determine_key_strategy config) = inr k ->
  bypasses request config = false ->
  journal (snd (check_rate_limit self request config d w))
  = (journal w ++ [IncrementCounter k (RateLimitStrategy.ttl s)])%list.
Proof.
  intros [Hret _] Hs Hk Hb.
  rewrite (check_rate_limit_reaches_store _ _ _ _ _ s k Hs Hk Hb).
  specialize (Hret (repository w) k (RateLimitStrategy.ttl s)).
  destruct (increment_counter _ _ _) as [[e|c] st]; simpl in Hret; [discriminate|].
  cbv zeta. destruct (c <? 0)%Z; [done|].
  by destruct (c <=? RateLimitStrategy.limit s)%Z.
Qed.

(** X7.  Count first, decide after: against a store that keeps the
    increment contract, each of [n] successive calls that reach the store
    issues one increment for the key, whether it is allowed or rejected, so
    the count grows by [n]; and, the count the store holds being not
    negative, every call made when the count has already reached the limit
    raises the exceeded signal. *)
Theorem every_call_is_billed count_of self request config d s k n :
  IncrementContract count_of ->
  _determine_strategy self config d = inr s ->
  extract_key request (_determine_key_strategy config) = inr k ->
  bypasses request config = false ->
  forall w,
    let r := check_repeatedly n self request config d w in
    length (fst r) = n /\
    count_of (repository (snd r)) k = (count_of (repository w) k + Z.of_nat n)%Z /\
    journal (snd r)
    = (journal w ++ repeat (IncrementCounter k (RateLimitStrategy.ttl s)) n)%list /\
    (forall i, (i < n)%nat ->
       (0 <= count_of (repository w) k)%Z ->
       (RateLimitStrategy.limit s <= count_of (repository w) k + Z.of_nat i)%Z ->
       exists status_code detail headers,
         fst r !! i = Some (inl (RateLimitHTTPException status_code detail headers))).
Proof.
  intros Hc Hs Hk Hb w. cbv zeta. split; [|split; [|split]].
  - revert w. induction n as [|n IH]; intros w; [reflexivity|].
    simpl. destruct (check_rate_limit self request config d w) as [o w1].
    specialize (IH w1). destruct (check_repeatedly n self request config d w1).
    simpl in *. by rewrite IH.
  - revert w. induction n as [|n IH]; intros w; [simpl; lia|].
    simpl check_repeatedly.
    destruct (check_rate_limit_counts count_of self request config d w s k Hc Hs Hk Hb)
      as [_ Hcount].
    destruct (check_rate_limit self request config d w) as [o w1]. simpl in Hcount.
    specialize (IH w1). destruct (check_repeatedly n self request config d w1).
    simpl in *. rewrite IH, Hcount. lia.
  - revert w. induction n as [|n IH]; intros w; [simpl; by rewrite app_nil_r|].
    simpl check_repeatedly.
    pose proof (check_rate_limit_billed count_of self request config d w s k Hc Hs Hk Hb)
      as Hj.
    destruct (check_rate_limit self request config d w) as [o w1]. simpl in Hj.
    specialize (IH w1). destruct (check_repeatedly n self request config d w1).
    simpl in *. rewrite IH, Hj. by rewrite <- app_assoc.
  - intros i Hi Hpos Hfull.
    rewrite (check_repeatedly_outcomes count_of _ _ _ _ s k Hc Hs Hk Hb n w i Hi Hpos).
    replace (count_of (repository w) k + Z.of_nat i + 1 <=? RateLimitStrategy.limit s)%Z
      with false by (symmetry; apply Z.leb_gt; lia).
    unfold exceeded_signal. eauto.
Qed.

(** X8.  Against a store that keeps the read contract, a call of
    [get_current_usage] leaves the store as it was: a second call has the
    same outcome, and a following [check_rate_limit] has the outcome it
    would have had without the read. *)
Theorem get_current_usage_does_not_disturb count_of self request config d w :
  ReadContract count_of ->
  let after := snd (get_current_usage self request config d w) in
  repository after = repository w /\
  fst (get_current_usage self request config d after)
  = fst (get_current_usage self request config d w) /\
  fst (check_rate_limit self request config d after)
  = fst (check_rate_limit self request config d w).
Proof.
  intros [Hread] after.
  assert (Hrepo : repository after = repository w).
  { subst after.
    destruct (get_current_usage_cases self request config d w)
      as [[e ->]|(s & k & _ & _ & ->)]; [reflexivity|].
    rewrite Hread. cbv zeta. by destruct (count_of (repository w) k <? 0)%Z. }
  split; [exact Hrepo|]. split.
  - by apply get_current_usage_repository_only.
  - by apply check_rate_limit_repository_only.
Qed.

(** X9.  A bypass function that returns false changes nothing: the call is
    the call with no bypass function, outcome and world alike. *)
Theorem bypass_false_is_no_bypass self request (cfg : RateLimitConfig Request) f d w :
  bypass_function cfg = Some f ->
  f request = inr false ->
  check_rate_limit self request (Some cfg) d w
  = check_rate_limit self request (Some (without_bypass cfg)) d w.
Proof.
  intros Hf Hfalse.
  assert (Hb : bypasses request (Some cfg) = false).
  { unfold bypasses. destruct cfg as [? ? ? bf ? ?]; simpl in Hf; subst bf.
    by rewrite Hfalse. }
  assert (Hw : bypass_warnings request (Some cfg) = []).
  { unfold bypass_warnings. destruct cfg as [? ? ? bf ? ?]; simpl in Hf; subst bf.
    by rewrite Hfalse. }
  destruct (_determine_strategy self (Some cfg) d) as [e1|s] eqn:Hs.
  { rewrite (check_rate_limit_resolution_fails self request (Some cfg) d w e1 Hs).
    by rewrite (check_rate_limit_resolution_fails self request (Some (without_bypass cfg))
                  d w e1 Hs). }
  destruct (extract_key request (_determine_key_strategy (Some cfg))) as [e2|k] eqn:Hk.
  { assert (Hk' : extract_key request (_determine_key_strategy (Some (without_bypass cfg)))
                  = inl e2) by (by rewrite _determine_key_strategy_without_bypass).
    rewrite (check_rate_limit_extraction_fails self request (Some cfg) d w s e2 Hs Hk).
    by rewrite (check_rate_limit_extraction_fails self request (Some (without_bypass cfg))
                  d w s e2 Hs Hk'). }
  assert (Hk' : extract_key request (_determine_key_strategy (Some (without_bypass cfg)))
                = inr k) by (by rewrite _determine_key_strategy_without_bypass).
  rewrite (check_rate_limit_steps _ _ (Some cfg) _ _ s k Hs Hk), Hb, Hw.
  rewrite (check_rate_limit_steps _ _ (Some (without_bypass cfg)) _ _ s k Hs Hk').
  change (bypasses request (Some (without_bypass cfg))) with false.
  change (bypass_warnings request (Some (without_bypass cfg))) with (@nil LogRecord).
  by rewrite perform_check_without_bypass.
Qed.

(** X10.  When the store count, one that is not negative, exceeds the
    limit, the message of the
    exceeded signal is the custom error message of the configuration when
    that is a string that is not empty; with no configuration, no custom
    message or an empty one it is the generated message, whose wait is the
    ttl. *)
Theorem exceeded_message self request config d w s k c st :
  _determine_strategy self config d = inr s ->
  extract_key request (_determine_key_strategy config) = inr k ->
  bypasses request config = false ->
  increment_counter (repository w) k (RateLimitStrategy.ttl s) = (inr c, st) ->
  (0 <= c)%Z ->
  (RateLimitStrategy.limit s < c)%Z ->
  exists detail headers,
    fst (check_rate_limit self request config d w)
    = inl (RateLimitHTTPException 429 detail headers) /\
    Detail.window detail = RateLimitStrategy.ttl s /\
    Detail.message detail
    = let generated :=
        generated_message (RateLimitStrategy.limit s) (RateLimitStrategy.ttl s)
          (Some (RateLimitStrategy.ttl s)) in
      match config with
      | Some cfg =>
          match custom_error_message cfg with
          | Some m => if String.eqb m "" then generated else [Lit m]
          | None => generated
          end
      | None => generated
      end.
Proof.
  intros Hs Hk Hb Hinc Hpos Hlt.
  rewrite (check_rate_limit_reaches_store _ _ _ _ _ s k Hs Hk Hb), Hinc. cbv zeta.
  assert (Hvalid : (c <? 0)%Z = false) by (apply Z.ltb_ge; lia).
  assert (Hgt : (c <=? RateLimitStrategy.limit s)%Z = false) by (apply Z.leb_gt; lia).
  rewrite Hvalid, Hgt. unfold exceeded_signal. do 2 eexists. split; [reflexivity|].
  split; [reflexivity|]. simpl. unfold _get_error_message, decided_result; simpl.
  rewrite Hgt. unfold generated_message.
  destruct config as [[? ? ? ? [m|] ?]|]; reflexivity.
Qed.
End MoreEngineFacts.

(** * Further properties of the registry *)

Section RegistryFacts.
Context {Request Store Endpoint : Type}.
Context `{!IRateLimitRepository Store} `{!KeyExtractionUseCase Request} `{!ToHeaders}.
Context `{!RequestScope Request Endpoint} `{!Decorator Request Endpoint}.

Implicit Types (self : RateLimitUseCase) (l : list RateLimitStrategy.t).
Implicit Types (m : gmap RateLimitStrategyName RateLimitStrategy.t).

Lemma strategy_map_fold_passes l m n :
  ~ In n (map RateLimitStrategy.name l) ->
  fold_left (fun m s => <[RateLimitStrategy.name s := s]> m) l m !! n = m !! n.
Proof.
  revert m. induction l as [|a l IH]; intros m Hn; simpl; [reflexivity|].
  simpl in Hn. rewrite IH by tauto. apply lookup_insert_ne. tauto.
Qed.

Lemma strategy_map_fold_member l m s :
  NoDup (map RateLimitStrategy.name l) -> In s l ->
  fold_left (fun m s => <[RateLimitStrategy.name s := s]> m) l m
    !! RateLimitStrategy.name s = Some s.
Proof.
  revert m. induction l as [|a l IH]; intros m Hnd Hin; [destruct Hin|].
  simpl in Hnd. apply NoDup_cons in Hnd as [Ha Hnd]. simpl.
  destruct Hin as [->|Hin]; [|by apply IH].
  rewrite strategy_map_fold_passes.
  - apply lookup_insert_eq.
  - intros Hin. apply Ha. by apply list_elem_of_In.
Qed.

Lemma strategy_map_fold_size l m :
  NoDup (map RateLimitStrategy.name l) ->
  (forall n, In n (map RateLimitStrategy.name l) -> m !! n = None) ->
  size (fold_left (fun m s => <[RateLimitStrategy.name s := s]> m) l m)
  = (size m + length l)%nat.
Proof.
  revert m. induction l as [|a l IH]; intros m Hnd Hfree; simpl; [lia|].
  simpl in Hnd. apply NoDup_cons in Hnd as [Ha Hnd].
  rewrite IH; [|done|].
  - rewrite map_size_insert_None; [lia|]. apply Hfree. by left.
  - intros n Hn. rewrite lookup_insert_ne.
    + apply Hfree. by right.
    + intros <-. apply Ha. by apply list_elem_of_In.
Qed.

(** X11.  After [update_strategies], [get_strategy] finds under a name the
    last strategy of the supplied list that carries it: of two strategies
    with one name the later replaces the earlier.  The update touches the
    logger only, not the store. *)
Theorem update_strategies_last_wins self l (w : World Store) n :
  exists self' w',
    update_strategies self l w = (inr self', w') /\
    get_strategy self' n = last_named n l /\
    default_strategies self' = l /\
    repository w' = repository w /\ journal w' = journal w /\ stdout w' = stdout w.
Proof.
  unfold update_strategies, bind, logger_log, ret. do 2 eexists.
  split; [reflexivity|]. unfold get_strategy; simpl.
  split; [apply strategy_map_of_last_named|]. by repeat split.
Qed.

(** X12.  When the names of the supplied strategies are pairwise distinct,
    [update_strategies] keeps them all: every strategy of the list is found
    by [get_strategy] under its own name, and [list_strategies] has as many
    entries as the list. *)
Theorem update_strategies_round_trip self l (w : World Store) :
  NoDup (map RateLimitStrategy.name l) ->
  exists self' w',
    update_strategies self l w = (inr self', w') /\
    (forall s, In s l -> get_strategy self' (RateLimitStrategy.name s) = Some s) /\
    size (list_strategies self') = length l.
Proof.
  intros Hnd. unfold update_strategies, bind, logger_log, ret. do 2 eexists.
  split; [reflexivity|]. unfold get_strategy, list_strategies, strategy_map_of; simpl.
  split.
  - intros s Hin. by apply strategy_map_fold_member.
  - rewrite strategy_map_fold_size; [by rewrite map_size_empty|done|].
    intros n _. apply lookup_empty.
Qed.

(** X13.  An empty strategy list replaces nothing in either constructor:
    the engine built with the empty list holds the default strategies, as
    the engine built with no list, and the middleware built with the empty
    list or with no list leaves the engine it is given and the world as
    they are.  A list that is not empty replaces the whole registry, in the
    engine's constructor and, through [update_strategies], in the
    middleware's. *)
Theorem empty_strategy_list_is_ignored :
  (forall n, get_strategy (RateLimitUseCase__init__ (Some [])) n
             = get_strategy (RateLimitUseCase__init__ None) n) /\
  (forall use_case d excluded en (w : World Store),
     RateLimitMiddleware__init__ use_case (Some []) d excluded en w
     = RateLimitMiddleware__init__ use_case None d excluded en w /\
     exists mw,
       RateLimitMiddleware__init__ use_case None d excluded en w = (inr mw, w) /\
       RateLimitMiddleware.rate_limit_use_case mw = use_case) /\
  (forall s l n, get_strategy (RateLimitUseCase__init__ (Some (s :: l))) n
                 = last_named n (s :: l)) /\
  (forall use_case s l d excluded en (w : World Store) n,
     exists mw w',
       RateLimitMiddleware__init__ use_case (Some (s :: l)) d excluded en w
       = (inr mw, w') /\
       get_strategy (RateLimitMiddleware.rate_limit_use_case mw) n
       = last_named n (s :: l)).
Proof.
  split; [reflexivity|]. split; [|split].
  - intros. split; [reflexivity|]. eexists. split; reflexivity.
  - intros. unfold get_strategy, RateLimitUseCase__init__; simpl _strategy_map.
    apply strategy_map_of_last_named.
  - intros. unfold RateLimitMiddleware__init__, update_strategies, bind, logger_log, ret.
    do 2 eexists. split; [reflexivity|]. unfold get_strategy; simpl.
    apply (strategy_map_of_last_named (s :: l)).
Qed.
End RegistryFacts.

(** * Further properties of the middleware *)

Section MoreMiddlewareFacts.
Context {Request Store Endpoint : Type}.
Context `{!IRateLimitRepository Store} `{!KeyExtractionUseCase Request} `{!ToHeaders}.
Context `{!RequestScope Request Endpoint} `{!Decorator Request Endpoint}.

Implicit Types (self : RateLimitMiddleware.t) (request : Request) (w : World Store).
Implicit Types (call_next : Request -> M Store Response.t).

(** What [dispatch] does with a request whose route switches rate limiting
    off. *)
Lemma dispatch_route_disabled self request call_next w :
  RateLimitMiddleware.enabled self = true ->
  _is_path_excluded self (url_path request) = false ->
  route_disabled request = true ->
  dispatch self request call_next w
  = match call_next request w with
    | (inr response, w') => (inr response, w')
    | (inl e, w') => call_next request (with_printed w' (middleware_error_line e))
    end.
Proof.
  intros Hen Hex Hdis. unfold dispatch. rewrite Hen, Hex.
  change (negb true) with false. cbv iota.
  unfold route_disabled, route_config_of in Hdis.
  unfold try_except, bind. cbv zeta. rewrite Hdis.
  unfold print, with_printed, middleware_error_line.
  by destruct (call_next request w) as [[e|response] w'].
Qed.

(** X14.  A disabled middleware hands every request to the next handler as
    it is, whatever its path and route; and enabling it again gives the
    behaviour of the enabled middleware, since [disable] and [enable]
    change nothing but the flag. *)
Theorem disabled_middleware_forwards self request call_next :
  dispatch (disable self) request call_next = call_next request /\
  dispatch (enable (disable self)) request call_next
  = dispatch (enable self) request call_next /\
  RateLimitMiddleware.rate_limit_use_case (disable self)
  = RateLimitMiddleware.rate_limit_use_case self /\
  RateLimitMiddleware.excluded_paths (enable (disable self))
  = RateLimitMiddleware.excluded_paths self /\
  RateLimitMiddleware.default_strategy_name (enable (disable self))
  = RateLimitMiddleware.default_strategy_name self.
Proof. repeat split. Qed.

(** X15.  For a route whose configuration has [enabled = false] the
    middleware runs no check: when the next handler returns, its response
    and world are the outcome, with no rate-limit header added.  But the
    handler is called inside the middleware's [try]: when it raises, the
    exception is printed and the handler is called a second time. *)
Theorem switched_off_route_is_forwarded self request call_next w :
  RateLimitMiddleware.enabled self = true ->
  _is_path_excluded self (url_path request) = false ->
  route_disabled request = true ->
  (forall response w',
     call_next request w = (inr response, w') ->
     dispatch self request call_next w = (inr response, w')) /\
  (forall e w',
     call_next request w = (inl e, w') ->
     dispatch self request call_next w
     = call_next request (with_printed w' (middleware_error_line e))).
Proof.
  intros Hen Hex Hdis.
  rewrite (dispatch_route_disabled self request call_next w Hen Hex Hdis).
  split; intros ? ? ->; reflexivity.
Qed.


Lemma lower_ascii_idempotent c : lower_ascii (lower_ascii c) = lower_ascii c.
Proof. destruct c as [[] [] [] [] [] [] [] []]; reflexivity. Qed.

Lemma lower_idempotent (s : string) : lower (lower s) = lower s.
Proof.
  induction s as [|c s IH]; simpl; [reflexivity|].
  by rewrite lower_ascii_idempotent, IH.
Qed.

(** One assignment, read at any name. *)
Lemma headers_replaced_lookup key value (headers : Headers) (h : string) :
  headers_replaced key value headers !! h
  = if decide (h = lower key) then Some value
    else if decide (lower h = lower key) then None
    else headers !! h.
Proof.
  unfold headers_replaced, Headers in *.
  destruct (decide (h = lower key)) as [->|Hne].
  { apply lookup_insert_eq. }
  rewrite lookup_insert_ne by done.
  destruct (decide (lower h = lower key)) as [Heq|Hneq].
  - apply map_lookup_filter_None. right. intros x _ Hp. by apply Hp.
  - destruct (headers !! h) as [x|] eqn:E.
    + by apply map_lookup_filter_Some.
    + apply map_lookup_filter_None. by left.
Qed.

Lemma assign_headers_returns items response :
  snd (assign_headers items response) = None /\
  Response.status_code (fst (assign_headers items response))
  = Response.status_code response /\
  Response.content (fst (assign_headers items response)) = Response.content response /\
  Response.headers (fst (assign_headers items response))
  = fold_left (fun hs kv => headers_replaced kv.1 kv.2 hs) items
      (Response.headers response).
Proof.
  revert response. induction items as [|[key value] rest IH]; intros response; simpl.
  - done.
  - destruct (IH (Response.mk (Response.status_code response) (Response.content response)
                    (headers_replaced key value (Response.headers response))))
      as (H1 & H2 & H3 & H4).
    by rewrite H1, H2, H3, H4.
Qed.

(** The loop over items whose names are pairwise different without regard
    to case. *)
Lemma assign_headers_fold (items : list (string * string)) (headers : Headers) :
  NoDup ((fun kv : string * string => lower kv.1) <$> items) ->
  let headers' :=
    fold_left (fun hs kv => headers_replaced kv.1 kv.2 hs) items headers in
  (forall k v, (k, v) ∈ items -> headers' !! lower k = Some v) /\
  (forall h, (forall kv, kv ∈ items -> lower kv.1 <> lower h) ->
             headers' !! h = headers !! h) /\
  (forall h k v, (k, v) ∈ items -> lower h = lower k -> h <> lower k ->
                 headers' !! h = None).
Proof.
  revert headers. induction items as [|[key value] rest IH]; intros headers Hnd; simpl.
  { split; [|split]; intros; try done; by match goal with H : _ ∈ [] |- _ =>
      apply elem_of_nil in H end. }
  apply NoDup_cons in Hnd as [Hfresh Hnd]. simpl in Hfresh.
  assert (Hrest : forall kv, kv ∈ rest -> lower kv.1 <> lower key).
  { intros kv Hin Heq. apply Hfresh. rewrite <- Heq.
    by apply (list_elem_of_fmap_2 (fun kv : string * string => lower kv.1)). }
  destruct (IH (headers_replaced key value headers) Hnd) as (IHa & IHb & IHc).
  split; [|split].
  - intros k v [[= -> ->]|Hin]%elem_of_cons; [|by apply IHa].
    rewrite IHb.
    + rewrite headers_replaced_lookup. by rewrite decide_True.
    + intros kv Hin. rewrite lower_idempotent. by apply Hrest.
  - intros h Hall. rewrite IHb.
    + rewrite headers_replaced_lookup.
      assert (Hne : lower h <> lower key).
      { intros Heq. apply (Hall (key, value)); [apply elem_of_cons; by left|done]. }
      rewrite decide_False; [by rewrite decide_False|].
      intros ->. apply Hne. apply lower_idempotent.
    + intros kv Hin. apply Hall. apply elem_of_cons. by right.
  - intros h k v [[= -> ->]|Hin]%elem_of_cons Heq Hne; [|by apply (IHc h k v)].
    rewrite IHb.
    + rewrite headers_replaced_lookup. rewrite decide_False by done.
      by rewrite decide_True.
    + intros kv Hin. rewrite Heq. by apply Hrest.
Qed.


(** X18.  The middleware raises nothing of its own: when the next handler
    returns a response in every world, [dispatch] returns a response,
    whatever the engine, the store and the other collaborators do. *)
Theorem dispatch_raises_only_with_handler self request call_next w :
  (forall w0, exists response w', call_next request w0 = (inr response, w')) ->
  exists response w', dispatch self request call_next w = (inr response, w').
Proof.
  intros Htotal.
  destruct (RateLimitMiddleware.enabled self) eqn:Hen.
  2:{ unfold dispatch. rewrite Hen. apply Htotal. }
  destruct (_is_path_excluded self (url_path request)) eqn:Hex.
  { unfold dispatch. rewrite Hen, Hex. apply Htotal. }
  destruct (route_disabled request) eqn:Hdis.
  { rewrite (dispatch_route_disabled self request call_next w Hen Hex Hdis).
    destruct (Htotal w) as (response & w' & ->). eauto. }
  rewrite (dispatch_checked self request call_next w Hen Hex Hdis).
  destruct (check_rate_limit _ _ _ _ w) as [[e|result] w1].
  - destruct e; eauto.
  - destruct (Htotal w1) as (response & w2 & ->). eauto.
Qed.

(** X19.  A default strategy name that the registry does not hold switches
    rate limiting off without a sign to the client: a request with no route
    configuration is handed to the next handler, after the engine logged
    the error and the middleware printed it, and no store call was
    issued. *)
Theorem missing_default_strategy_fails_open self request call_next w :
  RateLimitMiddleware.enabled self = true ->
  _is_path_excluded self (url_path request) = false ->
  route_config_of request = None ->
  _strategy_map (RateLimitMiddleware.rate_limit_use_case self)
    !! RateLimitMiddleware.default_strategy_name self = None ->
  dispatch self request call_next w
  = call_next request
      (with_printed
         (with_logged w
            [check_failed_record
               (RateLimitException
                  [Lit "Default strategy not found: ";
                   StrName (RateLimitMiddleware.default_strategy_name self)] 500)])
         (middleware_error_line check_failed)).
Proof.
  intros Hen Hex Hcfg Hmap.
  assert (Hdis : route_disabled request = false)
    by (unfold route_disabled; by rewrite Hcfg).
  rewrite (dispatch_checked self request call_next w Hen Hex Hdis), Hcfg.
  rewrite (check_rate_limit_resolution_fails _ _ _ _ _
             (RateLimitException
                [Lit "Default strategy not found: ";
                 StrName (RateLimitMiddleware.default_strategy_name self)] 500)).
  - reflexivity.
  - unfold _determine_strategy. by rewrite Hmap.
Qed.

(** X20.  The empty string among the excluded paths excludes every path,
    since every path starts with it: [dispatch] is then the call of the
    next handler for every request.  With no excluded path, no path is
    excluded. *)
Theorem empty_exclusion_excludes_all self request call_next :
  In "" (RateLimitMiddleware.excluded_paths self) ->
  (forall p, _is_path_excluded self p = true) /\
  dispatch self request call_next = call_next request /\
  (forall d en p,
     _is_path_excluded
       (RateLimitMiddleware.mk (RateLimitMiddleware.rate_limit_use_case self) d [] en) p
     = false).
Proof.
  intros Hin.
  assert (Hall : forall p, _is_path_excluded self p = true).
  { intros p. apply _is_path_excluded_prefix. exists "", p. by split. }
  split; [exact Hall|]. split; [|reflexivity].
  unfold dispatch. rewrite Hall. by destruct (RateLimitMiddleware.enabled self).
Qed.
End MoreMiddlewareFacts.

(** * The further properties on the concrete collaborators *)

Lemma memory_store_read_contract : ReadContract memory_count.
Proof. by split. Qed.

(** A request whose key cannot be extracted is not counted. *)
Lemma check_rate_limit_fails_before_counting_witness :
  extract_key sample_request (_determine_key_strategy (Some header_config))
  = inl (RateLimitException [Lit "Key extraction failed"] 400) /\
  (exists e', fst (check_rate_limit default_engine sample_request (Some header_config)
                     MEDIUM (fresh_world ({[sample_key := 2%Z]} : MemoryStore))) = inl e') /\
  repository (snd (check_rate_limit default_engine sample_request (Some header_config)
                     MEDIUM (fresh_world ({[sample_key := 2%Z]} : MemoryStore))))
  = {[sample_key := 2%Z]} /\
  journal (snd (check_rate_limit default_engine sample_request (Some header_config)
                  MEDIUM (fresh_world ({[sample_key := 2%Z]} : MemoryStore))))
  = [].
Proof.
  assert (Hk : extract_key sample_request (_determine_key_strategy (Some header_config))
               = inl (RateLimitException [Lit "Key extraction failed"] 400))
    by reflexivity.
  split; [exact Hk|].
  destruct (check_rate_limit_fails_before_counting (Store := MemoryStore)
              default_engine sample_request (Some header_config) MEDIUM
              (fresh_world ({[sample_key := 2%Z]} : MemoryStore))) as [_ Hext].
  exact (Hext _ Hk).
Defined.

Lemma check_rate_limit_returns_only_allowed_witness :
  fst (check_rate_limit default_engine sample_request no_config MEDIUM
         (fresh_world (∅ : MemoryStore)))
  = inr (RateLimitResult.mk true sample_key 1 20 600 None MEDIUM) /\
  RateLimitResult.allowed (RateLimitResult.mk true sample_key 1 20 600 None MEDIUM) = true /\
  RateLimitResult.retry_after (RateLimitResult.mk true sample_key 1 20 600 None MEDIUM)
  = None.
Proof.
  assert (Hr : fst (check_rate_limit default_engine sample_request no_config MEDIUM
                      (fresh_world (∅ : MemoryStore)))
               = inr (RateLimitResult.mk true sample_key 1 20 600 None MEDIUM))
    by reflexivity.
  split; [exact Hr|].
  destruct (check_rate_limit_returns_only_allowed (Store := MemoryStore)
              default_engine sample_request no_config MEDIUM
              (fresh_world (∅ : MemoryStore)) _ Hr) as (Ha & Hra & _).
  split; [exact Ha|exact Hra].
Defined.

Lemma get_current_usage_result_consistent_witness :
  fst (get_current_usage default_engine sample_request no_config SHORT
         (fresh_world ({[sample_key := 3%Z]} : MemoryStore)))
  = inr (RateLimitResult.mk false sample_key 3 3 60 (Some 60%Z) SHORT) /\
  RateLimitResult.retry_after (RateLimitResult.mk false sample_key 3 3 60 (Some 60%Z) SHORT)
  = Some 60%Z.
Proof.
  assert (Hr : fst (get_current_usage default_engine sample_request no_config SHORT
                      (fresh_world ({[sample_key := 3%Z]} : MemoryStore)))
               = inr (RateLimitResult.mk false sample_key 3 3 60 (Some 60%Z) SHORT))
    by reflexivity.
  split; [exact Hr|].
  destruct (get_current_usage_result_consistent (Store := MemoryStore)
              default_engine sample_request no_config SHORT
              (fresh_world ({[sample_key := 3%Z]} : MemoryStore)) _ Hr) as [_ Hra].
  exact Hra.
Defined.

(** Five calls under SHORT: the count is 5 although two were rejected. *)
Lemma every_call_is_billed_witness :
  _determine_strategy default_engine no_config SHORT = inr short_strategy /\
  extract_key sample_request (_determine_key_strategy no_config) = inr sample_key /\
  bypasses sample_request no_config = false /\
  memory_count
    (repository (snd (check_repeatedly 5 default_engine sample_request no_config SHORT
                        (fresh_world (∅ : MemoryStore))))) sample_key
  = (memory_count ∅ sample_key + 5)%Z /\
  journal (snd (check_repeatedly 5 default_engine sample_request no_config SHORT
                  (fresh_world (∅ : MemoryStore))))
  = ([] ++ repeat (IncrementCounter sample_key 60) 5)%list.
Proof.
  assert (Hs : _determine_strategy default_engine no_config SHORT = inr short_strategy)
    by reflexivity.
  assert (Hk : extract_key sample_request (_determine_key_strategy no_config)
               = inr sample_key) by reflexivity.
  assert (Hb : bypasses sample_request no_config = false) by reflexivity.
  split; [exact Hs|]. split; [exact Hk|]. split; [exact Hb|].
  destruct (every_call_is_billed (Store := MemoryStore) memory_count default_engine
              sample_request no_config SHORT short_strategy sample_key 5
              memory_store_contract Hs Hk Hb (fresh_world (∅ : MemoryStore)))
    as (_ & Hcount & Hjournal & _).
  split; [exact Hcount|exact Hjournal].
Defined.

Lemma get_current_usage_does_not_disturb_witness :
  ReadContract memory_count /\
  fst (check_rate_limit default_engine sample_request no_config SHORT
         (snd (get_current_usage default_engine sample_request no_config SHORT
                 (fresh_world ({[sample_key := 2%Z]} : MemoryStore)))))
  = fst (check_rate_limit default_engine sample_request no_config SHORT
           (fresh_world ({[sample_key := 2%Z]} : MemoryStore))).
Proof.
  split; [exact memory_store_read_contract|].
  destruct (get_current_usage_does_not_disturb (Store := MemoryStore) memory_count
              default_engine sample_request no_config SHORT
              (fresh_world ({[sample_key := 2%Z]} : MemoryStore))
              memory_store_read_contract) as (_ & _ & Hcheck).
  exact Hcheck.
Defined.

Lemma bypass_false_is_no_bypass_witness :
  bypass_function (admin_config bypass_nobody) = Some bypass_nobody /\
  bypass_nobody sample_request = inr false /\
  check_rate_limit default_engine sample_request (Some (admin_config bypass_nobody)) MEDIUM
    (fresh_world (∅ : MemoryStore))
  = check_rate_limit default_engine sample_request
      (Some (without_bypass (admin_config bypass_nobody))) MEDIUM
      (fresh_world (∅ : MemoryStore)).
Proof.
  assert (Hf : bypass_function (admin_config bypass_nobody) = Some bypass_nobody)
    by reflexivity.
  assert (Hfalse : bypass_nobody sample_request = inr false) by reflexivity.
  split; [exact Hf|]. split; [exact Hfalse|].
  exact (bypass_false_is_no_bypass (Store := MemoryStore) default_engine sample_request
           (admin_config bypass_nobody) bypass_nobody MEDIUM
           (fresh_world (∅ : MemoryStore)) Hf Hfalse).
Defined.

(** The sixth request on [/api/admin] carries the custom message. *)
Lemma exceeded_message_witness :
  increment_counter (repository (fresh_world ({[sample_key := 5%Z]} : MemoryStore)))
    sample_key 60 = (inr 6%Z, {[sample_key := 6%Z]}) /\
  exists detail headers,
    fst (check_rate_limit default_engine sample_request (Some (admin_config bypass_nobody))
           MEDIUM (fresh_world ({[sample_key := 5%Z]} : MemoryStore)))
    = inl (RateLimitHTTPException 429 detail headers) /\
    Detail.window detail = 60%Z /\
    Detail.message detail = [Lit "Admin endpoint is rate limited for non-admin users"].
Proof.
  assert (Hs : _determine_strategy default_engine (Some (admin_config bypass_nobody)) MEDIUM
               = inr custom_strategy) by reflexivity.
  assert (Hk : extract_key sample_request
                 (_determine_key_strategy (Some (admin_config bypass_nobody)))
               = inr sample_key) by reflexivity.
  assert (Hb : bypasses sample_request (Some (admin_config bypass_nobody)) = false)
    by reflexivity.
  assert (Hinc : increment_counter
                   (repository (fresh_world ({[sample_key := 5%Z]} : MemoryStore)))
                   sample_key (RateLimitStrategy.ttl custom_strategy)
                 = (inr 6%Z, {[sample_key := 6%Z]})) by reflexivity.
  assert (Hpos : (0 <= 6)%Z) by lia.
  assert (Hlt : (RateLimitStrategy.limit custom_strategy < 6)%Z) by (simpl; lia).
  split; [exact Hinc|].
  exact (exceeded_message (Store := MemoryStore) default_engine sample_request
           (Some (admin_config bypass_nobody)) MEDIUM _ custom_strategy sample_key 6%Z _
           Hs Hk Hb Hinc Hpos Hlt).
Defined.

Lemma update_strategies_round_trip_witness :
  NoDup (map RateLimitStrategy.name _get_default_strategies) /\
  exists self' w',
    update_strategies (RateLimitUseCase__init__ (Some short_twice)) _get_default_strategies
      (fresh_world (∅ : MemoryStore)) = (inr self', w') /\
    (forall s, In s _get_default_strategies ->
               get_strategy self' (RateLimitStrategy.name s) = Some s) /\
    size (list_strategies self') = length _get_default_strategies.
Proof.
  assert (Hnd : NoDup (map RateLimitStrategy.name _get_default_strategies)).
  { simpl. repeat constructor; rewrite ?list_elem_of_In; simpl; intuition discriminate. }
  split; [exact Hnd|].
  exact (update_strategies_round_trip (Store := MemoryStore)
           (RateLimitUseCase__init__ (Some short_twice)) _get_default_strategies
           (fresh_world (∅ : MemoryStore)) Hnd).
Defined.

Lemma switched_off_route_is_forwarded_witness :
  RateLimitMiddleware.enabled sample_middleware = true /\
  _is_path_excluded sample_middleware (url_path internal_request) = false /\
  route_disabled (Decorator0 := SwitchedOffDecorator) internal_request = true /\
  dispatch (Decorator0 := SwitchedOffDecorator) sample_middleware internal_request
    tagged_handler (fresh_world (∅ : MemoryStore))
  = tagged_handler internal_request (fresh_world (∅ : MemoryStore)).
Proof.
  assert (Hen : RateLimitMiddleware.enabled sample_middleware = true) by reflexivity.
  assert (Hex : _is_path_excluded sample_middleware (url_path internal_request) = false)
    by reflexivity.
  assert (Hdis : route_disabled (Decorator0 := SwitchedOffDecorator) internal_request
                 = true) by reflexivity.
  split; [exact Hen|]. split; [exact Hex|]. split; [exact Hdis|].
  destruct (switched_off_route_is_forwarded (Store := MemoryStore)
              (Decorator0 := SwitchedOffDecorator) sample_middleware internal_request
              tagged_handler (fresh_world (∅ : MemoryStore)) Hen Hex Hdis) as [Hret _].
  apply Hret. reflexivity.
Defined.


Lemma dispatch_raises_only_with_handler_witness :
  (forall w0 : World UnreachableStore,
     exists response w', ok_handler sample_request w0 = (inr response, w')) /\
  exists response w',
    dispatch sample_middleware sample_request ok_handler (fresh_world unreachable)
    = (inr response, w').
Proof.
  assert (Htotal : forall w0 : World UnreachableStore,
             exists response w', ok_handler sample_request w0 = (inr response, w')).
  { intros w0. do 2 eexists. reflexivity. }
  split; [exact Htotal|].
  exact (dispatch_raises_only_with_handler (Store := UnreachableStore) sample_middleware
           sample_request ok_handler (fresh_world unreachable) Htotal).
Defined.

(** With CUSTOM as the default name, no request is limited any more. *)
Lemma missing_default_strategy_fails_open_witness :
  _strategy_map default_engine
    !! RateLimitMiddleware.default_strategy_name (set_default_strategy sample_middleware CUSTOM)
  = None /\
  fst (dispatch (set_default_strategy sample_middleware CUSTOM) sample_request ok_handler
         (fresh_world ({[sample_key := 1000%Z]} : MemoryStore)))
  = inr (Response.mk 200 (Body "ok") ∅).
Proof.
  assert (Hen : RateLimitMiddleware.enabled (set_default_strategy sample_middleware CUSTOM)
                = true) by reflexivity.
  assert (Hex : _is_path_excluded (set_default_strategy sample_middleware CUSTOM)
                  (url_path sample_request) = false) by reflexivity.
  assert (Hcfg : route_config_of sample_request = None) by reflexivity.
  assert (Hmap : _strategy_map
                   (RateLimitMiddleware.rate_limit_use_case
                      (set_default_strategy sample_middleware CUSTOM))
                   !! RateLimitMiddleware.default_strategy_name
                        (set_default_strategy sample_middleware CUSTOM) = None)
    by reflexivity.
  split; [exact Hmap|].
  rewrite (missing_default_strategy_fails_open (Store := MemoryStore)
             (set_default_strategy sample_middleware CUSTOM) sample_request ok_handler
             (fresh_world ({[sample_key := 1000%Z]} : MemoryStore)) Hen Hex Hcfg Hmap).
  reflexivity.
Defined.

Lemma empty_exclusion_excludes_all_witness :
  In "" (RateLimitMiddleware.excluded_paths
           (RateLimitMiddleware.mk default_engine MEDIUM [""] true)) /\
  dispatch (Store := MemoryStore) (RateLimitMiddleware.mk default_engine MEDIUM [""] true)
    sample_request ok_handler
  = ok_handler sample_request.
Proof.
  assert (Hin : In "" (RateLimitMiddleware.excluded_paths
                         (RateLimitMiddleware.mk default_engine MEDIUM [""] true)))
    by (simpl; tauto).
  split; [exact Hin|].
  destruct (empty_exclusion_excludes_all (Store := MemoryStore)
              (RateLimitMiddleware.mk default_engine MEDIUM [""] true)
              sample_request ok_handler Hin) as (_ & Hfwd & _).
  exact Hfwd.
Defined.

(** * What a configuration overrides *)

Section OverrideFacts.
Context {Request Store : Type}.
Context `{!IRateLimitRepository Store} `{!KeyExtractionUseCase Request} `{!ToHeaders}.

Implicit Types (self : RateLimitUseCase) (request : Request) (w : World Store).

Lemma _determine_strategy_inline self self' (cfg : RateLimitConfig Request) d d' s :
  strategy cfg = Some s ->
  _determine_strategy self (Some cfg) d = inr s /\
  _determine_strategy self' (Some cfg) d' = inr s.
Proof. intros Hs. unfold _determine_strategy. by rewrite Hs. Qed.

Lemma _determine_strategy_named self (cfg : RateLimitConfig Request) d d' n :
  strategy cfg = None -> strategy_name cfg = Some n ->
  _determine_strategy self (Some cfg) d = _determine_strategy self (Some cfg) d'.
Proof. intros Hs Hn. unfold _determine_strategy. by rewrite Hs, Hn. Qed.

(** X21.  A configuration that carries a strategy makes the call
    independent of the engine's registry and of the default strategy name:
    [check_rate_limit] and [get_current_usage] behave alike on any two
    engines and any two default names, so such a route keeps working after
    the registry was emptied.  A configuration that carries only a strategy
    name makes the call independent of the default name. *)
Theorem configured_strategy_overrides self self' request (cfg : RateLimitConfig Request)
    d d' w :
  (forall s, strategy cfg = Some s ->
     check_rate_limit self request (Some cfg) d w
     = check_rate_limit self' request (Some cfg) d' w /\
     get_current_usage self request (Some cfg) d w
     = get_current_usage self' request (Some cfg) d' w) /\
  (forall n, strategy cfg = None -> strategy_name cfg = Some n ->
     check_rate_limit self request (Some cfg) d w
     = check_rate_limit self request (Some cfg) d' w /\
     get_current_usage self request (Some cfg) d w
     = get_current_usage self request (Some cfg) d' w).
Proof.
  split.
  - intros s Hs.
    destruct (_determine_strategy_inline self self' cfg d d' s Hs) as [H1 H2].
    unfold check_rate_limit, get_current_usage. by rewrite H1, H2.
  - intros n Hs Hn.
    pose proof (_determine_strategy_named self cfg d d' n Hs Hn) as H1.
    unfold check_rate_limit, get_current_usage. by rewrite H1.
Qed.
End OverrideFacts.

(** The admin route of the example, on the default engine and on an engine
    whose registry was emptied. *)
Lemma configured_strategy_overrides_witness :
  strategy (admin_config bypass_for_admins) = Some custom_strategy /\
  check_rate_limit default_engine sample_request (Some (admin_config bypass_for_admins))
    MEDIUM (fresh_world (∅ : MemoryStore))
  = check_rate_limit {| default_strategies := []; _strategy_map := ∅ |} sample_request
      (Some (admin_config bypass_for_admins)) LONG (fresh_world (∅ : MemoryStore)).
Proof.
  assert (Hs : strategy (admin_config bypass_for_admins) = Some custom_strategy)
    by reflexivity.
  split; [exact Hs|].
  destruct (configured_strategy_overrides (Store := MemoryStore) default_engine
              {| default_strategies := []; _strategy_map := ∅ |} sample_request
              (admin_config bypass_for_admins) MEDIUM LONG
              (fresh_world (∅ : MemoryStore))) as [Hinline _].
  destruct (Hinline custom_strategy Hs) as [Hcheck _]. exact Hcheck.
Defined.

(** The header names that [SpecToHeaders] gives a result differ in more
    than case. *)
Lemma first_result_header_names k :
  is_Some (to_headers first_result !! k) ->
  k = "X-RateLimit-Limit" \/ k = "X-RateLimit-Remaining" \/
  k = "X-RateLimit-Reset" \/ k = "X-RateLimit-Used".
Proof.
  intros [v Hv]. unfold to_headers, SpecToHeaders, first_result in Hv.
  cbv zeta in Hv. cbn [RateLimitResult.allowed] in Hv. cbv iota in Hv.
  unfold Headers in Hv.
  rewrite lookup_insert in Hv. case_decide as E1; [subst; auto 10|].
  rewrite lookup_insert in Hv. case_decide as E2; [subst; auto 10|].
  rewrite lookup_insert in Hv. case_decide as E3; [subst; auto 10|].
  rewrite lookup_insert in Hv. case_decide as E4; [subst; auto 10|].
  destruct (lookup_empty_Some (M := gmap string) _ _ Hv).
Qed.

Lemma first_result_header_names_distinct k1 k2 :
  is_Some (to_headers first_result !! k1) -> is_Some (to_headers first_result !! k2) ->
  lower k1 = lower k2 -> k1 = k2.
Proof.
  intros H1%first_result_header_names H2%first_result_header_names Heq.
  destruct H1 as [->|[->|[->| ->]]], H2 as [->|[->|[->| ->]]];
    first [reflexivity | vm_compute in Heq; discriminate].
Qed.

